(** * SentinelX: secure report submission and integrity pipeline

    A shallow embedding of the parts of the repository that carry the
    pipeline's state and protocol:

    - [IncidentProof]   the Solidity ledger contract [IncidentProof],
    - [EthereumProof]   the browser client class of that contract,
    - [Gateway]         the Express gateway: the submit, status and webhook
                        handlers over Redis and the blob store,
    - [E2EECrypto]      the client-side crypto helpers
                        (frontend/src/utils/crypto.js).

    The definitions come first, the properties after them. External
    libraries (ethers, CryptoJS, the JavaScript built-ins) are interfaces,
    given as type classes; the clock, the UUID source, the randomness and
    the blob store's answers are explicit inputs of the handlers. *)

From Stdlib Require Import ZArith NArith String Ascii List.
From Stdlib.Strings Require Import Byte.
From stdpp Require Import base option gmap strings pretty list fin_maps.

Local Open Scope string_scope.
Local Open Scope N_scope.

(** ** Results of fallible operations *)

(** A Solidity call either returns or reverts with the reason string of the
    failing [require]; a reverted call leaves no trace in the state. *)
Inductive result (A : Type) : Type :=
| Ok (a : A)
| Revert (reason : string).
Arguments Ok {A} a.
Arguments Revert {A} reason.

#[global] Instance result_ret : MRet result := @Ok.
#[global] Instance result_bind : MBind result :=
  λ A B f r, match r with Ok a => f a | Revert s => Revert s end.

Definition require (c : bool) (reason : string) : result unit :=
  if c then Ok tt else Revert reason.

(** Solidity [bytes(s).length > 0]. *)
Definition nonempty (s : string) : bool :=
  match s with EmptyString => false | String _ _ => true end.

(** ** The ledger contract *)
Module IncidentProof.

(** [address], [bytes32] and [uint256] are unsigned machine integers; the
    contract never does arithmetic on them, only equality tests. *)
Abbreviation address := N.
Abbreviation bytes32 := N.
Abbreviation uint256 := N.

Record Report := mkReport {
  contentHash : bytes32;
  reporter : address;
  timestamp : uint256;
  status : string;
  exists_ : bool
}.

(** An unset slot of a Solidity mapping reads as the all-zero value. *)
Definition zeroReport : Report := mkReport 0 0 0 "" false.

Record State := mkState {
  owner : address;
  reports : gmap N Report;
  reportsByAddress : gmap N (list N)
}.

Definition report_at (σ : State) (h : bytes32) : Report :=
  default zeroReport (reports σ !! h).

Definition reports_of (σ : State) (a : address) : list N :=
  default [] (reportsByAddress σ !! a).

(** The transaction context: [msg.sender] and [block.timestamp]. *)
Record Msg := mkMsg {
  msg_sender : address;
  block_timestamp : uint256
}.

Inductive Event :=
| ReportSubmitted (h : bytes32) (who : address) (ts : uint256) (st : string)
| StatusUpdated (h : bytes32) (previousStatus newStatus : string) (updatedBy : address)
| OwnershipTransferred (previousOwner newOwner : address).

(** The constructor of [Ownable] makes the deployer the owner. *)
Definition deploy (deployer : address) : State :=
  mkState deployer ∅ ∅.

(** *** Modifiers *)

Definition reportExists_modifier (σ : State) (h : bytes32) : result unit :=
  require (exists_ (report_at σ h)) "Report does not exist".

Definition onlyReporter (σ : State) (m : Msg) (h : bytes32) : result unit :=
  require (N.eqb (reporter (report_at σ h)) (msg_sender m)
           || N.eqb (msg_sender m) (owner σ))
          "Only reporter or owner can update".

(** [onlyOwner] of OpenZeppelin's [Ownable]. *)
Definition onlyOwner (σ : State) (m : Msg) : result unit :=
  require (N.eqb (owner σ) (msg_sender m)) "Ownable: caller is not the owner".

(** [nonReentrant] only matters for calls re-entering the contract from an
    external call; the contract makes none, so the guard is always passed
    and restored and is left out of the state. *)

(** *** State-changing functions *)

Definition set_status (σ : State) (h : bytes32) (st : string) : State :=
  let r := report_at σ h in
  mkState (owner σ)
          (<[h := mkReport (contentHash r) (reporter r) (timestamp r) st (exists_ r)]> (reports σ))
          (reportsByAddress σ).

Definition submitReport (σ : State) (m : Msg) (h : bytes32) (st : string)
  : result (State * list Event) :=
  _ ← require (negb (N.eqb h 0)) "Invalid content hash";
  _ ← require (nonempty st) "Status cannot be empty";
  _ ← require (negb (exists_ (report_at σ h))) "Report already exists";
  Ok (mkState (owner σ)
              (<[h := mkReport h (msg_sender m) (block_timestamp m) st true]> (reports σ))
              (<[msg_sender m := (reports_of σ (msg_sender m) ++ [h])%list]> (reportsByAddress σ)),
      [ReportSubmitted h (msg_sender m) (block_timestamp m) st]).

Definition updateStatus (σ : State) (m : Msg) (h : bytes32) (newStatus : string)
  : result (State * list Event) :=
  _ ← reportExists_modifier σ h;
  _ ← onlyReporter σ m h;
  _ ← require (nonempty newStatus) "Status cannot be empty";
  let previousStatus := status (report_at σ h) in
  Ok (set_status σ h newStatus,
      [StatusUpdated h previousStatus newStatus (msg_sender m)]).

Definition emergencyUpdateStatus (σ : State) (m : Msg) (h : bytes32) (newStatus : string)
  : result (State * list Event) :=
  _ ← onlyOwner σ m;
  _ ← reportExists_modifier σ h;
  let previousStatus := status (report_at σ h) in
  Ok (set_status σ h newStatus,
      [StatusUpdated h previousStatus newStatus (msg_sender m)]).

(** Inherited from OpenZeppelin's [Ownable]. *)
Definition transferOwnership (σ : State) (m : Msg) (newOwner : address)
  : result (State * list Event) :=
  _ ← onlyOwner σ m;
  _ ← require (negb (N.eqb newOwner 0)) "Ownable: new owner is the zero address";
  Ok (mkState newOwner (reports σ) (reportsByAddress σ),
      [OwnershipTransferred (owner σ) newOwner]).

Definition renounceOwnership (σ : State) (m : Msg) : result (State * list Event) :=
  _ ← onlyOwner σ m;
  Ok (mkState 0 (reports σ) (reportsByAddress σ),
      [OwnershipTransferred (owner σ) 0]).

(** *** Views *)

Definition getReport (σ : State) (h : bytes32) : result (uint256 * string * address) :=
  _ ← reportExists_modifier σ h;
  let report := report_at σ h in
  Ok (timestamp report, status report, reporter report).

Definition reportExists (σ : State) (h : bytes32) : bool :=
  exists_ (report_at σ h).

Definition getReportsByAddress (σ : State) (a : address) : list N :=
  reports_of σ a.

Definition getReportCount (σ : State) (a : address) : N :=
  N.of_nat (length (reports_of σ a)).

(** *** Transactions and histories *)

Inductive Call :=
| call_submitReport (h : bytes32) (st : string)
| call_updateStatus (h : bytes32) (st : string)
| call_emergencyUpdateStatus (h : bytes32) (st : string)
| call_transferOwnership (a : address)
| call_renounceOwnership.

Definition exec (σ : State) (m : Msg) (c : Call) : result (State * list Event) :=
  match c with
  | call_submitReport h st => submitReport σ m h st
  | call_updateStatus h st => updateStatus σ m h st
  | call_emergencyUpdateStatus h st => emergencyUpdateStatus σ m h st
  | call_transferOwnership a => transferOwnership σ m a
  | call_renounceOwnership => renounceOwnership σ m
  end.

(** A reverted transaction leaves the state as it was. *)
Definition step (σ : State) (tx : Msg * Call) : State :=
  match exec σ (fst tx) (snd tx) with
  | Ok (σ', _) => σ'
  | Revert _ => σ
  end.

Definition run (σ : State) (txs : list (Msg * Call)) : State :=
  fold_left step txs σ.

(** *** Vocabulary of the properties *)

(** The revert reason the ledger client reports as a duplicate hash. *)
Definition DuplicateHash : string := "Report already exists".

(** What an anchored hash keeps forever: its existence, reporter, timestamp
    and key. Only the status field may differ. *)
Definition same_anchor (r r' : Report) : Prop :=
  exists_ r' = exists_ r ∧ reporter r' = reporter r ∧
  timestamp r' = timestamp r ∧ contentHash r' = contentHash r.

End IncidentProof.

(** ** The browser client of the ledger *)

(** What the client takes from the ethers library and the chain:
    [ethers.keccak256], the hash under which a sent transaction is known,
    and JavaScript's [Number] applied to a returned [uint256]. *)
Class Ethers := {
  keccak256 : list byte → N;
  tx_hash : IncidentProof.Msg → IncidentProof.Call → string;
  Number : N → N
}.

Module EthereumProof.

(** Strings are held as their UTF-8 bytes, which is also how Solidity holds
    them, so [ethers.toUtf8Bytes] lists the bytes of the string. *)
Definition toUtf8Bytes (s : string) : list byte := list_byte_of_string s.

Inductive error :=
| Error (message : string)
| CallException (reason : string).

Inductive outcome (A : Type) : Type :=
| Return (a : A)
| Throw (e : error).
Arguments Return {A} a.
Arguments Throw {A} e.

(** [contractWithSigner] is set by [connectWallet]; it is identified with
    the address the signer signs for. *)
Record Client := mkClient {
  contractWithSigner : option N
}.

Definition disconnected : Client := mkClient None.

(** [window.ethereum] is the injected wallet, if any, with its account. *)
Definition connectWallet (window_ethereum : option N) : outcome (Client * N) :=
  match window_ethereum with
  | None => Throw (Error "MetaMask not found")
  | Some account => Return (mkClient (Some account), account)
  end.

(** A state-changing contract call signed by [signer] and included in a
    block stamped [now]; a revert surfaces as a thrown call exception. *)
Definition transact `{Ethers} (signer : N) (now : N) (chain : IncidentProof.State)
    (call : IncidentProof.Call) : outcome (IncidentProof.State * string) :=
  let m := IncidentProof.mkMsg signer now in
  match IncidentProof.exec chain m call with
  | Ok (chain', _) => Return (chain', tx_hash m call)
  | Revert reason => Throw (CallException reason)
  end.

Definition submitProof `{Ethers} (c : Client) (chain : IncidentProof.State) (now : N)
    (contentHash : string) (status : option string)
  : outcome (IncidentProof.State * string) :=
  let status := default "submitted" status in
  match contractWithSigner c with
  | None => Throw (Error "Wallet not connected")
  | Some signer =>
      let hashBytes := keccak256 (toUtf8Bytes contentHash) in
      transact signer now chain (IncidentProof.call_submitReport hashBytes status)
  end.

Record Proof := mkProof {
  timestamp : N;
  status : string;
  reporter : N
}.

Definition getProof `{Ethers} (chain : IncidentProof.State) (contentHash : string)
  : outcome Proof :=
  let hashBytes := keccak256 (toUtf8Bytes contentHash) in
  match IncidentProof.getReport chain hashBytes with
  | Ok (ts, st, who) => Return (mkProof (Number ts) st who)
  | Revert reason => Throw (CallException reason)
  end.

Definition updateProof `{Ethers} (c : Client) (chain : IncidentProof.State) (now : N)
    (contentHash : string) (newStatus : string)
  : outcome (IncidentProof.State * string) :=
  match contractWithSigner c with
  | None => Throw (Error "Wallet not connected")
  | Some signer =>
      let hashBytes := keccak256 (toUtf8Bytes contentHash) in
      transact signer now chain (IncidentProof.call_updateStatus hashBytes newStatus)
  end.

End EthereumProof.

(** ** JavaScript values and [JSON.stringify] *)

(** The JSON fragment of JavaScript values. Numbers are the integers that
    print in plain decimal notation (magnitude below 10^21); an object lists
    its properties in the order JavaScript enumerates them, which for the
    string-named properties of the sources is the order they were written
    in (integer-like names would come first); a property whose value is
    [undefined] is simply not listed. *)
#[warnings="-register-all"]
Inductive json :=
| JNull
| JBool (b : bool)
| JNum (n : Z)
| JStr (s : string)
| JArr (items : list json)
| JObj (fields : list (string * json)).

(** An object literal some of whose properties may be [undefined]. *)
Definition obj (fields : list (string * option json)) : json :=
  JObj (omap (λ kv, pair (fst kv) <$> snd kv) fields).

Definition jfield (name : string) (j : json) : option json :=
  match j with
  | JObj fields => snd <$> List.find (λ kv, String.eqb (fst kv) name) fields
  | _ => None
  end.

(** JavaScript truthiness, as tested by [!x] and [x ? a : b]. *)
Definition truthy (j : json) : bool :=
  match j with
  | JNull => false
  | JBool b => b
  | JNum n => negb (Z.eqb n 0)
  | JStr s => nonempty s
  | JArr _ | JObj _ => true
  end.

Definition truthy_str (s : option string) : bool :=
  match s with Some s => nonempty s | None => false end.

Definition dquote : ascii := "034"%char.
Definition backslash : ascii := "092"%char.

Definition hex_digit (n : nat) : ascii :=
  match n with
  | 0 => "0" | 1 => "1" | 2 => "2" | 3 => "3" | 4 => "4" | 5 => "5" | 6 => "6"
  | 7 => "7" | 8 => "8" | 9 => "9" | 10 => "a" | 11 => "b" | 12 => "c"
  | 13 => "d" | 14 => "e" | _ => "f"
  end%nat%char.

(** The escape of one character inside a JSON string literal. *)
Definition escape_char (c : ascii) : string :=
  let n := nat_of_ascii c in
  if Ascii.eqb c dquote then String backslash (String dquote "")
  else if Ascii.eqb c backslash then String backslash (String backslash "")
  else if Nat.eqb n 8 then String backslash "b"
  else if Nat.eqb n 9 then String backslash "t"
  else if Nat.eqb n 10 then String backslash "n"
  else if Nat.eqb n 12 then String backslash "f"
  else if Nat.eqb n 13 then String backslash "r"
  else if Nat.ltb n 32 then
    String backslash (String "u" (String "0" (String "0"
      (String (hex_digit (Nat.div n 16)) (String (hex_digit (Nat.modulo n 16)) "")))))
  else String c "".

Fixpoint escape (s : string) : string :=
  match s with
  | EmptyString => EmptyString
  | String c rest => escape_char c ++ escape rest
  end.

Definition quote (s : string) : string :=
  String dquote (escape s ++ String dquote "").

Fixpoint JSON_stringify (j : json) : string :=
  match j with
  | JNull => "null"
  | JBool true => "true"
  | JBool false => "false"
  | JNum n => pretty n
  | JStr s => quote s
  | JArr items => "[" ++ String.concat "," (map JSON_stringify items) ++ "]"
  | JObj fields =>
      "{" ++ String.concat ","
               (map (λ kv, quote (fst kv) ++ ":" ++ JSON_stringify (snd kv)) fields)
          ++ "}"
  end.

(** *** Reading a string literal back *)

(** The value of a hexadecimal digit as [escape_char] writes them. *)
Definition hex_value (c : ascii) : nat :=
  let n := nat_of_ascii c in
  if Nat.leb 97 n then (n - 87)%nat else (n - 48)%nat.

(** Reads one escaped character off the front of the inside of a string
    literal; [None] at the closing quote. *)
Definition unescape_head (s : string) : option (ascii * string) :=
  match s with
  | EmptyString => None
  | String c rest =>
      if Ascii.eqb c dquote then None
      else if Ascii.eqb c backslash then
        match rest with
        | String x rest =>
            if Ascii.eqb x "b" then Some (ascii_of_nat 8, rest)
            else if Ascii.eqb x "t" then Some (ascii_of_nat 9, rest)
            else if Ascii.eqb x "n" then Some (ascii_of_nat 10, rest)
            else if Ascii.eqb x "f" then Some (ascii_of_nat 12, rest)
            else if Ascii.eqb x "r" then Some (ascii_of_nat 13, rest)
            else if Ascii.eqb x "u" then
              match rest with
              | String _ (String _ (String h (String l rest))) =>
                  Some (ascii_of_nat (16 * hex_value h + hex_value l), rest)
              | _ => None
              end
            else Some (x, rest)
        | EmptyString => None
        end
      else Some (c, rest)
  end.

(** The JavaScript built-ins the handlers call: [JSON.parse] ([None] when it
    throws) and [parseInt] ([None] for NaN). *)
Class JavaScript := {
  JSON_parse : string → option json;
  parseInt : string → option Z
}.

(** ** The gateway server *)
Module Gateway.

(** *** The Redis store *)

(** Hashes and lists live under disjoint key families ([report:], [result:]
    and the queue name), so they are kept in two maps. The store is taken
    to be reachable; the one client call that fails in the model is an
    [hSet] handed an [undefined] value. *)
Record Redis := mkRedis {
  hashes : gmap string (gmap string string);
  lists : gmap string (list string)
}.

Definition emptyRedis : Redis := mkRedis ∅ ∅.

(** [hGetAll] of a missing key is the empty object. *)
Definition hGetAll (db : Redis) (key : string) : gmap string string :=
  default ∅ (hashes db !! key).

(** Writing one field. *)
Definition write (h : gmap string string) (kv : string * string) : gmap string string :=
  <[fst kv := snd kv]> h.

(** The arguments of a command, as the client encodes them before anything
    is sent: a value that is [undefined] cannot be encoded, and the call
    throws a type error. *)
Definition encode (fields : list (string * option string)) : option (list (string * string)) :=
  mapM (λ kv, pair (fst kv) <$> snd kv) fields.

(** The command [HSET key field value ...] as the store carries it out:
    the fields are written, in order, over the hash stored at [key], which
    is created when missing. *)
Definition HSET (db : Redis) (key : string) (args : list (string * string)) : Redis :=
  mkRedis (<[key := foldl write (hGetAll db key) args]> (hashes db)) (lists db).

(** [hSet key fields] of the client: [None] when the call throws, in which
    case no command was sent and the store has not been touched. *)
Definition hSet (db : Redis) (key : string) (fields : list (string * option string))
  : option Redis :=
  HSET db key <$> encode fields.

(** The value [hSet] writes to a field, if it writes one: the last listed
    entry for the field decides. *)
Fixpoint written (args : list (string * string)) (f : string) : option string :=
  match args with
  | [] => None
  | kv :: rest =>
      match written rest f with
      | Some v => Some v
      | None => if String.eqb (fst kv) f then Some (snd kv) else None
      end
  end.

Definition lPush (db : Redis) (key : string) (value : string) : Redis :=
  mkRedis (hashes db) (<[key := value :: default [] (lists db !! key)]> (lists db)).

(** *** Blob storage *)

(** The output of [crypto.createCipher(algorithm, password)] run over a
    buffer is kept symbolic, so that the key material a stored blob was
    encrypted under can be read off it. *)
Inductive Ciphertext :=
| Cipher (algorithm password : string) (plain : list byte).

Definition cipher_password (c : Ciphertext) : string :=
  match c with Cipher _ password _ => password end.

Record UploadParams := mkUploadParams {
  Bucket : string;
  Key : string;
  Body : Ciphertext;
  ContentType : string;
  ServerSideEncryption : string;
  Metadata : list (string * string)
}.

(** The blob store: what has been put, and whether it accepts a put and
    under which location it then reports the object. *)
Record S3 := mkS3 {
  objects : list UploadParams;
  upload_result : UploadParams → option string
}.

Record Server := mkServer {
  redis : Redis;
  s3 : S3
}.

(** *** Requests, responses and the handlers' environment *)

Record File := mkFile {
  originalname : string;
  mimetype : string;
  buffer : list byte
}.

Record SubmitRequest := mkSubmitRequest {
  encryptedData : option json;
  wrappedKey : option string;
  contentHash : option string;
  ethTxHash : option string;
  files : list File
}.

(** The values a submission draws from outside: [process.env.S3_BUCKET],
    [uuidv4()] for the report and for each file, and the two readings of
    the clock. *)
Record SubmitEnv := mkSubmitEnv {
  S3_BUCKET : option string;
  uuid_report : string;
  uuid_file : nat → string;
  now_received : string;
  now_job : string
}.

(** The body of a result callback: the identifier and the status are
    strings; the summary and the list of processed files may be missing
    ([undefined]). *)
Record WebhookBody := mkWebhookBody {
  wb_reportId : string;
  wb_status : string;
  wb_redactionSummary : option json;
  wb_processedFiles : option json
}.

Record Response := mkResponse {
  code : N;
  body : json
}.

Definition res_json (j : json) : Response := mkResponse 200 j.

Definition internal_error : Response :=
  mkResponse 500 (JObj [("error", JStr "Internal server error")]).

(** *** POST /api/reports *)

Definition uploadParams_for (env : SubmitEnv) (reportId wrappedKey fileKey : string)
    (file : File) : UploadParams :=
  let encryptedFile := Cipher "aes-256-gcm" wrappedKey (buffer file) in
  mkUploadParams
    (match S3_BUCKET env with
     | Some bucket => if nonempty bucket then bucket else "incident-reports-encrypted"
     | None => "incident-reports-encrypted"
     end)
    fileKey
    encryptedFile
    "application/octet-stream"
    "AES256"
    [("original-name", originalname file); ("report-id", reportId)].

(** The loop over [req.files]; the [i]-th file draws the [i]-th file UUID.
    A rejected upload throws out of the handler: [None] for the URLs, the
    earlier uploads stay in the store. *)
Fixpoint uploadFiles (reportId wrappedKey : string) (env : SubmitEnv)
    (i : nat) (todo : list File) (store : S3) (fileUrls : list json)
  : S3 * option (list json) :=
  match todo with
  | [] => (store, Some fileUrls)
  | file :: rest =>
      let fileKey :=
        "reports/" ++ reportId ++ "/" ++ uuid_file env i ++ "-" ++ originalname file in
      let uploadParams := uploadParams_for env reportId wrappedKey fileKey file in
      match upload_result store uploadParams with
      | None => (store, None)
      | Some location =>
          uploadFiles reportId wrappedKey env (S i) rest
            (mkS3 (objects store ++ [uploadParams])%list (upload_result store))
            (fileUrls ++ [JObj [("key", JStr fileKey);
                                ("url", JStr location);
                                ("originalName", JStr (originalname file))]])%list
      end
  end.

(** The job handed to the worker. *)
Definition jobData_of (env : SubmitEnv) (encryptedData : json) (wrappedKey contentHash : string)
    (fileUrls : list json) : json :=
  JObj [("reportId", JStr (uuid_report env));
        ("encryptedData", encryptedData);
        ("wrappedKey", JStr wrappedKey);
        ("contentHash", JStr contentHash);
        ("files", JArr fileUrls);
        ("timestamp", JStr (now_job env))].

Definition submit (srv : Server) (env : SubmitEnv) (req : SubmitRequest)
  : Server * Response :=
  let reportId := uuid_report env in
  match encryptedData req, wrappedKey req, contentHash req with
  | Some encryptedData, Some wrappedKey, Some contentHash =>
      if negb (truthy encryptedData) || negb (nonempty wrappedKey) || negb (nonempty contentHash)
      then (srv, mkResponse 400 (JObj [("error", JStr "Missing required fields")]))
      else
        let reportMetadata :=
          [("reportId", Some reportId);
           ("contentHash", Some contentHash);
           ("ethTxHash", ethTxHash req);
           ("timestamp", Some (now_received env));
           ("status", Some "received");
           ("filesCount", Some (pretty (length (files req))))] in
        match uploadFiles reportId wrappedKey env 0 (files req) (s3 srv) [] with
        | (store, None) => (mkServer (redis srv) store, internal_error)
        | (store, Some fileUrls) =>
            let jobData := jobData_of env encryptedData wrappedKey contentHash fileUrls in
            let db := lPush (redis srv) "gpu-worker-queue" (JSON_stringify jobData) in
            match hSet db ("report:" ++ reportId)
                    (reportMetadata ++ [("jobData", Some (JSON_stringify jobData))])%list with
            | None => (mkServer db store, internal_error)
            | Some db =>
                (mkServer db store,
                 res_json (JObj [("reportId", JStr reportId);
                                 ("status", JStr "queued");
                                 ("message", JStr "Report received and queued for processing")]))
            end
        end
  | _, _, _ => (srv, mkResponse 400 (JObj [("error", JStr "Missing required fields")]))
  end.

(** *** GET /api/reports/:reportId/status *)

Definition getStatus `{JavaScript} (srv : Server) (reportId : string) : Response :=
  let reportData := hGetAll (redis srv) ("report:" ++ reportId) in
  if negb (truthy_str (reportData !! "reportId"))
  then mkResponse 404 (JObj [("error", JStr "Report not found")])
  else
    let resultData := hGetAll (redis srv) ("result:" ++ reportId) in
    let filesCount := default 0%Z (reportData !! "filesCount" ≫= parseInt) in
    let redactionPreview :=
      match resultData !! "redactionSummary" with
      | Some text => if nonempty text then JSON_parse text else Some JNull
      | None => Some JNull
      end in
    match redactionPreview with
    | None => internal_error
    | Some preview =>
        res_json (obj [("reportId", Some (JStr reportId));
                       ("status", JStr <$> reportData !! "status");
                       ("timestamp", JStr <$> reportData !! "timestamp");
                       ("filesCount", Some (JNum filesCount));
                       ("redactionPreview", Some preview);
                       ("ethTxHash", JStr <$> reportData !! "ethTxHash")])
    end.

(** *** POST /api/webhook/processing-complete *)

Definition webhook_failed : Response :=
  mkResponse 500 (JObj [("error", JStr "Webhook processing failed")]).

(** [JSON.stringify(undefined)] is [undefined], so a body without its
    summary or without its list of files makes the second [hSet] throw,
    after the first has been carried out. *)
Definition webhook (srv : Server) (now : string) (b : WebhookBody) : Server * Response :=
  let reportId := wb_reportId b in
  match hSet (redis srv) ("report:" ++ reportId) [("status", Some (wb_status b))] with
  | None => (srv, webhook_failed)
  | Some db =>
      match hSet db ("result:" ++ reportId)
              [("redactionSummary", JSON_stringify <$> wb_redactionSummary b);
               ("processedFiles", JSON_stringify <$> wb_processedFiles b);
               ("completedAt", Some now)] with
      | None => (mkServer db (s3 srv), webhook_failed)
      | Some db => (mkServer db (s3 srv), res_json (JObj [("success", JBool true)]))
      end
  end.


(** *** Vocabulary of the properties *)

(** How the gateway encrypts and stores one attachment. *)
Definition stored_as (wrappedKey : string) (file : File) (up : UploadParams) : Prop :=
  Body up = Cipher "aes-256-gcm" wrappedKey (buffer file) ∧
  ServerSideEncryption up = "AES256".

End Gateway.

(** ** Client-side crypto (frontend/src/utils/crypto.js) *)

(** The block modes of crypto-js. *)
Inductive BlockMode := mode_CBC | mode_CFB | mode_CTR | mode_OFB | mode_ECB.

(** [CryptoJS.mode.GCM]: the library has no mode of that name, and reading
    a property an object does not have yields [undefined]. *)
Definition mode_GCM : option BlockMode := None.

(** The object [CryptoJS.AES.encrypt] returns, over the library's word
    arrays: its OpenSSL-style string form, and the [iv] and [salt] it used. *)
Record CipherParams (W : Type) := mkCipherParams {
  cp_toString : string;
  cp_iv : option W;
  cp_salt : option W
}.
Arguments mkCipherParams {W} _ _ _.
Arguments cp_toString {W} _.
Arguments cp_iv {W} _.
Arguments cp_salt {W} _.

(** The options object passed to [encrypt] and [decrypt]. The [mode]
    property is left out ([None]) or given, and when given its value may
    be [undefined] ([Some None]). *)
Record CipherCfg (W : Type) := mkCipherCfg {
  cfg_mode : option (option BlockMode);
  cfg_iv : option W;
  cfg_salt : option W
}.
Arguments mkCipherCfg {W} _ _ _.
Arguments cfg_mode {W} _.
Arguments cfg_iv {W} _.
Arguments cfg_salt {W} _.

(** The CryptoJS library, over its word arrays [W] and the randomness [E]
    one call consumes. [Utf8_stringify] is [None] when decoding throws
    "Malformed UTF-8 data". [AES_encrypt] and [AES_decrypt] are the cipher
    set up with a block mode of the library, [None] standing for the
    default one. *)
Class CryptoJS (W E : Type) := {
  WordArray_random : E → nat → W;
  WordArray_toString : W → string;
  Hex_parse : string → W;
  Utf8_stringify : W → option string;
  SHA256 : string → W;
  SHA3 : string → nat → W;
  AES_encrypt : string → string → option BlockMode → E → CipherParams W;
  AES_decrypt : string → string → option BlockMode → option W → option W → W
}.

Module E2EECrypto.

Inductive error :=
| TypeError
| MalformedUtf8
| SyntaxError.

Inductive outcome (A : Type) : Type :=
| Return (a : A)
| Throw (e : error).
Arguments Return {A} a.
Arguments Throw {A} e.

Record EncryptedReport := mkEncryptedReport {
  ciphertext : string;
  iv : option string;
  salt : option string
}.

(** The JavaScript object an [EncryptedReport] is. *)
Definition EncryptedReport_json (enc : EncryptedReport) : json :=
  obj [("ciphertext", Some (JStr (ciphertext enc)));
       ("iv", JStr <$> iv enc);
       ("salt", JStr <$> salt enc)].

Section Library.
Context {W E : Type} `{CryptoJS W E}.

(** [CryptoJS.AES.encrypt(message, key, cfg)] and
    [CryptoJS.AES.decrypt(text, key, cfg)]. The options are laid over the
    library's defaults, so a [mode] given as [undefined] replaces the
    default mode, and setting the cipher up, which asks the mode for its
    encryptor or decryptor, throws a type error. *)
Definition CryptoJS_AES_encrypt (message key : string) (cfg : CipherCfg W) (e : E)
  : outcome (CipherParams W) :=
  match cfg_mode cfg with
  | Some None => Throw TypeError
  | Some (Some mode) => Return (AES_encrypt message key (Some mode) e)
  | None => Return (AES_encrypt message key None e)
  end.

Definition CryptoJS_AES_decrypt (text key : string) (cfg : CipherCfg W) : outcome W :=
  match cfg_mode cfg with
  | Some None => Throw TypeError
  | Some (Some mode) => Return (AES_decrypt text key (Some mode) (cfg_iv cfg) (cfg_salt cfg))
  | None => Return (AES_decrypt text key None (cfg_iv cfg) (cfg_salt cfg))
  end.

Definition generateKey (e : E) : string :=
  WordArray_toString (WordArray_random e (256 / 8)%nat).

Definition generateKeyPair (e : E) : string * string :=
  let privateKey := WordArray_toString (WordArray_random e (256 / 8)%nat) in
  let publicKey := WordArray_toString (SHA256 privateKey) in
  (privateKey, publicKey).

Definition encryptReport (data : json) (key : string) (e : E) : outcome EncryptedReport :=
  match CryptoJS_AES_encrypt (JSON_stringify data) key
          (mkCipherCfg (Some mode_GCM) None None) e with
  | Throw err => Throw err
  | Return encrypted =>
      Return (mkEncryptedReport (cp_toString encrypted)
                                (WordArray_toString <$> cp_iv encrypted)
                                (WordArray_toString <$> cp_salt encrypted))
  end.

(** The options object is built first: [Hex.parse] of an [undefined] field
    throws a type error. *)
Definition decryptReport `{JavaScript} (encryptedData : EncryptedReport) (key : string)
  : outcome json :=
  match iv encryptedData, salt encryptedData with
  | Some iv, Some salt =>
      match CryptoJS_AES_decrypt (ciphertext encryptedData) key
              (mkCipherCfg (Some mode_GCM) (Some (Hex_parse iv)) (Some (Hex_parse salt))) with
      | Throw err => Throw err
      | Return decrypted =>
          match Utf8_stringify decrypted with
          | None => Throw MalformedUtf8
          | Some text =>
              match JSON_parse text with
              | None => Throw SyntaxError
              | Some value => Return value
              end
          end
      end
  | _, _ => Throw TypeError
  end.



(** The string [hashContent] feeds to the hash function. *)
Definition hashInput (content : json) : string := JSON_stringify content.

Definition hashContent (content : json) : string :=
  WordArray_toString (SHA3 (hashInput content) 256%nat).

End Library.


End E2EECrypto.

(** ** Test doubles and sample inputs *)

(** Stand-ins for the external libraries, used to run the handlers on
    concrete inputs. *)
Module Doubles.

(** A chain whose hash is the length of the input plus one (never zero). *)
Definition ethers : Ethers := {|
  keccak256 := λ bs, N.succ (N.of_nat (length bs));
  tx_hash := λ m _, "0xtx" ++ pretty (IncidentProof.block_timestamp m);
  Number := λ n, n
|}.

Definition summary : json :=
  JObj [("facesRedacted", JNum 3); ("piiRedacted", JNum 7); ("filesProcessed", JNum 1)].

Definition formData : json :=
  JObj [("title", JStr "Leak"); ("description", JStr "Badge reader left open");
        ("category", JStr "general"); ("severity", JStr "medium"); ("files", JArr [])].

(** A [JSON.parse] that knows the texts of the samples, and a [parseInt]
    reading one decimal digit. *)
Definition javascript : JavaScript := {|
  JSON_parse := λ text,
    if String.eqb text (JSON_stringify summary) then Some summary
    else if String.eqb text (JSON_stringify formData) then Some formData
    else if String.eqb text "null" then Some JNull
    else None;
  parseInt := λ text,
    match text with
    | String c EmptyString =>
        let n := nat_of_ascii c in
        if (Nat.leb 48 n && Nat.leb n 57)%bool then Some (Z.of_nat (n - 48)) else None
    | _ => None
    end
|}.

(** An unauthenticated toy cipher over plain strings: every character of
    the message is xor-ed with a character of the passphrase, taken in
    turn; decryption is the same operation. *)
Definition xor_ascii (a b : ascii) : ascii :=
  match a, b with
  | Ascii a0 a1 a2 a3 a4 a5 a6 a7, Ascii b0 b1 b2 b3 b4 b5 b6 b7 =>
      Ascii (xorb a0 b0) (xorb a1 b1) (xorb a2 b2) (xorb a3 b3)
            (xorb a4 b4) (xorb a5 b5) (xorb a6 b6) (xorb a7 b7)
  end.

Definition pad (key : string) (i : nat) : ascii :=
  match String.get (Nat.modulo i (String.length key)) key with
  | Some c => c
  | None => Ascii.zero
  end.

Fixpoint xor_stream (key : string) (i : nat) (text : string) : string :=
  match text with
  | EmptyString => EmptyString
  | String c rest => String (xor_ascii c (pad key i)) (xor_stream key (S i) rest)
  end.

Definition cryptojs : CryptoJS string string := {|
  WordArray_random := λ e _, e;
  WordArray_toString := λ w, w;
  Hex_parse := λ text, text;
  Utf8_stringify := λ w, Some w;
  SHA256 := λ text, "sha256:" ++ text;
  SHA3 := λ text _, "sha3:" ++ text;
  AES_encrypt := λ message key _ e, mkCipherParams (xor_stream key 0 message) (Some e) (Some e);
  AES_decrypt := λ text key _ _ _, xor_stream key 0 text
|}.

Definition s3 : Gateway.S3 :=
  Gateway.mkS3 [] (λ p, Some ("https://blobs.example/" ++ Gateway.Key p)).

Definition server : Gateway.Server := Gateway.mkServer Gateway.emptyRedis s3.

Definition env : Gateway.SubmitEnv :=
  Gateway.mkSubmitEnv None "r-1" (λ i, "f-" ++ pretty i)
    "2024-01-01T00:00:00.000Z" "2024-01-01T00:00:00.001Z".

Definition photo : Gateway.File :=
  Gateway.mkFile "badge.png" "image/png" [x89; x50; x4e; x47].

(** The envelope of the submission scenario, with and without a file. *)
Definition request (wrappedKey : string) (files : list Gateway.File) : Gateway.SubmitRequest :=
  Gateway.mkSubmitRequest (Some (JStr "AB12")) (Some wrappedKey) (Some "H") (Some "0x7e57") files.

Definition callback (status : string) : Gateway.WebhookBody :=
  Gateway.mkWebhookBody "r-1" status (Some summary) (Some (JArr [])).

End Doubles.

(** ** Further parts of the code *)

(** *** The ledger: which report a transaction names *)
Module Ledger.

Definition target (c : IncidentProof.Call) : option N :=
  match c with
  | IncidentProof.call_submitReport h _ => Some h
  | IncidentProof.call_updateStatus h _ => Some h
  | IncidentProof.call_emergencyUpdateStatus h _ => Some h
  | IncidentProof.call_transferOwnership _ => None
  | IncidentProof.call_renounceOwnership => None
  end.

(** A transaction sent by neither of the two addresses. *)
Definition sent_by_neither (a b : N) (tx : IncidentProof.Msg * IncidentProof.Call) : Prop :=
  IncidentProof.msg_sender (fst tx) ≠ a ∧ IncidentProof.msg_sender (fst tx) ≠ b.

(** What the index of reports by address holds. *)
Definition indexed (σ : IncidentProof.State) : Prop :=
  (∀ a h, h ∈ IncidentProof.reports_of σ a ↔
          IncidentProof.exists_ (IncidentProof.report_at σ h) = true ∧ IncidentProof.reporter (IncidentProof.report_at σ h) = a) ∧
  (∀ a, NoDup (IncidentProof.reports_of σ a)).

End Ledger.

(** *** The gateway's upload filter *)
Module Upload.

(** [String.prototype.toLowerCase] on the letters A to Z; file names are
    taken to be ASCII, other characters are kept. *)
Definition lower_char (c : ascii) : ascii :=
  let n := nat_of_ascii c in
  if (Nat.leb 65 n && Nat.leb n 90)%bool then ascii_of_nat (n + 32) else c.

Fixpoint toLowerCase (s : string) : string :=
  match s with
  | EmptyString => EmptyString
  | String c rest => String (lower_char c) (toLowerCase rest)
  end.

(** [needle] occurs somewhere in [hay]. *)
Fixpoint includes (needle hay : string) : bool :=
  String.prefix needle hay ||
  match hay with
  | EmptyString => false
  | String _ rest => includes needle rest
  end.

(** The alternatives of the regular expression [allowedTypes]. *)
Definition allowedTypes : list string :=
  ["jpeg"; "jpg"; "png"; "gif"; "pdf"; "doc"; "docx"; "mp4"; "mp3"; "wav"].

(** [allowedTypes.test(s)]: the expression is not anchored, so it matches
    when one of its alternatives occurs in [s]. *)
Definition allowedTypes_test (s : string) : bool :=
  existsb (λ t, includes t s) allowedTypes.

Inductive verdict :=
| accepted
| refused (message : string).

Definition fileFilter (file : Gateway.File) : verdict :=
  let extname := allowedTypes_test (toLowerCase (Gateway.originalname file)) in
  let mimetype := allowedTypes_test (Gateway.mimetype file) in
  if (mimetype && extname)%bool then accepted else refused "Invalid file type".

End Upload.

(** *** Sequences of requests to the gateway *)
Module Traffic.

Inductive Request :=
| Submit (env : Gateway.SubmitEnv) (req : Gateway.SubmitRequest)
| Callback (now : string) (b : Gateway.WebhookBody).

Definition handle (srv : Gateway.Server) (r : Request) : Gateway.Server :=
  match r with
  | Submit env req => fst (Gateway.submit srv env req)
  | Callback now b => fst (Gateway.webhook srv now b)
  end.

Definition serve (srv : Gateway.Server) (rs : list Request) : Gateway.Server :=
  fold_left handle rs srv.

(** The report identifiers drawn for the submissions of a sequence. *)
Definition drawn (rs : list Request) : list string :=
  omap (λ r, match r with
             | Submit env _ => Some (Gateway.uuid_report env)
             | Callback _ _ => None
             end) rs.

(** The three required fields of an envelope are present and truthy. *)
Definition valid_envelope (req : Gateway.SubmitRequest) : bool :=
  (from_option truthy false (Gateway.encryptedData req)
   && truthy_str (Gateway.wrappedKey req)
   && truthy_str (Gateway.contentHash req))%bool.

(** The key the [i]-th file of a submission is stored under. *)
Definition fileKey (env : Gateway.SubmitEnv) (i : nat) (file : Gateway.File) : string :=
  "reports/" ++ Gateway.uuid_report env ++ "/" ++ Gateway.uuid_file env i
    ++ "-" ++ Gateway.originalname file.

(** The two refusals of the gateway. *)
Definition missing_fields : Gateway.Response :=
  Gateway.mkResponse 400 (JObj [("error", JStr "Missing required fields")]).

Definition not_found : Gateway.Response :=
  Gateway.mkResponse 404 (JObj [("error", JStr "Report not found")]).


Fixpoint accepted (srv : Gateway.Server) (rs : list Request) : nat :=
  match rs with
  | [] => 0
  | r :: rest =>
      (match r with
       | Submit env req =>
           if N.eqb (Gateway.code (snd (Gateway.submit srv env req))) 200 then 1 else 0
       | Callback _ _ => 0
       end + accepted (handle srv r) rest)%nat
  end.



End Traffic.

(** *** The status page *)
Module ReportStatus.

(** The component's state: [status] starts as ['processing']; a fetched
    value may be any JSON value, or [undefined]. *)
Record State := mkState {
  status : option json;
  redactionPreview : option json
}.

Definition initial : State := mkState (Some (JStr "processing")) None.

(** [fetchStatus] once the answer has arrived: the body is read whatever
    the answer's code, and its two fields are stored. *)
Definition fetchStatus (st : State) (res : Gateway.Response) : State :=
  let data := Gateway.body res in
  mkState (jfield "status" data) (jfield "redactionPreview" data).

Definition getStatusText (st : State) : string :=
  match status st with
  | Some (JStr s) =>
      if String.eqb s "completed" then "Report processed and redacted successfully"
      else if String.eqb s "processing" then "GPU worker processing redaction..."
      else if String.eqb s "failed" then "Processing failed - please try again"
      else "Initializing..."
  | _ => "Initializing..."
  end.

End ReportStatus.

(** *** The gateway stand-in of the API tests *)
Module MockGateway.

Definition submit (req : Gateway.SubmitRequest) : Gateway.Response :=
  match Gateway.encryptedData req, Gateway.wrappedKey req, Gateway.contentHash req with
  | Some encryptedData, Some wrappedKey, Some contentHash =>
      if negb (truthy encryptedData) || negb (nonempty wrappedKey) || negb (nonempty contentHash)
      then Gateway.mkResponse 400 (JObj [("error", JStr "Missing required fields")])
      else Gateway.res_json
             (JObj [("reportId", JStr "test-report-id");
                    ("status", JStr "queued");
                    ("message", JStr "Report received and queued for processing")])
  | _, _, _ => Gateway.mkResponse 400 (JObj [("error", JStr "Missing required fields")])
  end.

End MockGateway.

(** *** Further sample inputs *)
Module Samples.

(** A blob store that accepts nothing. *)
Definition full_s3 : Gateway.S3 := Gateway.mkS3 [] (λ _, None).

Definition scan : Gateway.File :=
  Gateway.mkFile "Scan.PDF" "application/pdf" [x25; x50; x44; x46].

End Samples.

(** * Properties *)

(** ** The ledger contract *)
Module IncidentProofSpec.
Import IncidentProof.

Ltac split_require H :=
  let c := fresh "cond" in
  match type of H with
  | context [require ?b ?r] => destruct b eqn:c; cbn in H; [| discriminate H]
  end.

Lemma submitReport_inv σ m h st σ' evs :
  submitReport σ m h st = Ok (σ', evs) →
  h ≠ 0 ∧ nonempty st = true ∧ exists_ (report_at σ h) = false ∧
  σ' = mkState (owner σ)
         (<[h := mkReport h (msg_sender m) (block_timestamp m) st true]> (reports σ))
         (<[msg_sender m := (reports_of σ (msg_sender m) ++ [h])%list]> (reportsByAddress σ)).
Proof.
  unfold submitReport. intros Hs.
  destruct (N.eqb h 0) eqn:Hh; cbn in Hs; [discriminate |].
  destruct (nonempty st) eqn:Hst; cbn in Hs; [| discriminate].
  destruct (exists_ (report_at σ h)) eqn:He; cbn in Hs; [discriminate |].
  inversion Hs; subst. apply N.eqb_neq in Hh. auto.
Qed.

Lemma report_at_insert σo (rs : gmap N Report) ra h r :
  report_at (mkState σo (<[h := r]> rs) ra) h = r.
Proof. unfold report_at; cbn. by rewrite lookup_insert_eq. Qed.

Lemma report_at_insert_ne σo (rs : gmap N Report) ra h h' r :
  h ≠ h' → report_at (mkState σo (<[h := r]> rs) ra) h' = default zeroReport (rs !! h').
Proof. intros Hne. unfold report_at; cbn. by rewrite lookup_insert_ne. Qed.

Lemma set_status_anchor σ h h' st :
  same_anchor (report_at σ h') (report_at (set_status σ h st) h').
Proof.
  unfold set_status. destruct (decide (h = h')) as [-> | Hne].
  - rewrite report_at_insert. by repeat split.
  - rewrite report_at_insert_ne by done. by repeat split.
Qed.

Lemma exec_anchor σ m c σ' evs h :
  exists_ (report_at σ h) = true →
  exec σ m c = Ok (σ', evs) →
  same_anchor (report_at σ h) (report_at σ' h).
Proof.
  intros Hex Hc. destruct c as [h' st | h' st | h' st | a |]; cbn in Hc.
  - apply submitReport_inv in Hc as (_ & _ & Hfree & ->).
    destruct (decide (h' = h)) as [-> | Hne]; [congruence |].
    rewrite report_at_insert_ne by done. by repeat split.
  - unfold updateStatus, reportExists_modifier, onlyReporter in Hc.
    do 3 split_require Hc. inversion Hc; subst. apply set_status_anchor.
  - unfold emergencyUpdateStatus, reportExists_modifier, onlyOwner in Hc.
    do 2 split_require Hc. inversion Hc; subst. apply set_status_anchor.
  - unfold transferOwnership, onlyOwner in Hc.
    do 2 split_require Hc. inversion Hc; subst. by repeat split.
  - unfold renounceOwnership, onlyOwner in Hc.
    split_require Hc. inversion Hc; subst. by repeat split.
Qed.

Lemma step_anchor σ tx h :
  exists_ (report_at σ h) = true →
  same_anchor (report_at σ h) (report_at (step σ tx) h).
Proof.
  intros Hex. unfold step.
  destruct (exec σ tx.1 tx.2) as [[σ' evs] | reason] eqn:Hc.
  - by eapply exec_anchor.
  - by repeat split.
Qed.

Lemma run_anchor txs : ∀ σ h,
  exists_ (report_at σ h) = true →
  same_anchor (report_at σ h) (report_at (run σ txs) h).
Proof.
  induction txs as [| tx txs IH]; intros σ h Hex.
  - by repeat split.
  - change (run σ (tx :: txs)) with (run (step σ tx) txs).
    destruct (step_anchor σ tx h Hex) as (He & Hr & Ht & Hc).
    destruct (IH (step σ tx) h) as (He' & Hr' & Ht' & Hc'); [congruence |].
    repeat split; congruence.
Qed.

Lemma getReport_exists σ h :
  exists_ (report_at σ h) = true →
  getReport σ h =
    Ok (timestamp (report_at σ h), status (report_at σ h), reporter (report_at σ h)).
Proof. intros Hex. unfold getReport, reportExists_modifier. by rewrite Hex. Qed.

(** C7 (as amended). Once [submitReport] has succeeded for a hash, then
    after any further transactions from any callers a new [submitReport]
    for that hash reverts and changes nothing: with the duplicate-hash
    reason when its status is non-empty, with the empty-status reason
    otherwise; and [getReport] still answers with the first submitter and
    the first timestamp (and with the submitted status right after the
    submission). *)
Theorem anchored_hash_rejects_resubmission σ m h st σ1 evs txs m' st' :
  submitReport σ m h st = Ok (σ1, evs) →
  getReport σ1 h = Ok (block_timestamp m, st, msg_sender m) ∧
  submitReport (run σ1 txs) m' h st'
    = Revert (if nonempty st' then DuplicateHash else "Status cannot be empty") ∧
  step (run σ1 txs) (m', call_submitReport h st') = run σ1 txs ∧
  ∃ st2, getReport (run σ1 txs) h = Ok (block_timestamp m, st2, msg_sender m).
Proof.
  intros Hsub. apply submitReport_inv in Hsub as (Hh & _ & _ & ->).
  set (σ1 := mkState _ _ _).
  assert (Hr : report_at σ1 h = mkReport h (msg_sender m) (block_timestamp m) st true)
    by apply report_at_insert.
  assert (Hex : exists_ (report_at σ1 h) = true) by by rewrite Hr.
  destruct (run_anchor txs σ1 h Hex) as (He & Hrep & Hts & _).
  rewrite Hr in He, Hrep, Hts; cbn in He, Hrep, Hts.
  assert (Hrev : submitReport (run σ1 txs) m' h st'
                 = Revert (if nonempty st' then DuplicateHash else "Status cannot be empty")).
  { unfold submitReport. apply N.eqb_neq in Hh. rewrite Hh, He.
    by destruct (nonempty st'). }
  split; [| split; [| split]].
  - rewrite getReport_exists by done. by rewrite Hr.
  - exact Hrev.
  - unfold step; cbn. by rewrite Hrev.
  - exists (status (report_at (run σ1 txs) h)).
    rewrite getReport_exists by done. by rewrite Hrep, Hts.
Qed.

(** The theorem on a ledger where the reporter has moved the status on
    before the second submission. *)
Lemma anchored_hash_rejects_resubmission_witness :
  ∃ σ1 evs,
    submitReport (deploy 1) (mkMsg 2 100) 7 "submitted" = Ok (σ1, evs) ∧
    submitReport (run σ1 [(mkMsg 2 101, call_updateStatus 7 "processing")])
                 (mkMsg 3 102) 7 "submitted" = Revert DuplicateHash ∧
    getReport (run σ1 [(mkMsg 2 101, call_updateStatus 7 "processing")]) 7
      = Ok (100, "processing", 2).
Proof.
  destruct (anchored_hash_rejects_resubmission
              (deploy 1) (mkMsg 2 100) 7 "submitted" _ _
              [(mkMsg 2 101, call_updateStatus 7 "processing")]
              (mkMsg 3 102) "submitted" eq_refl) as (_ & Hrev & _ & _).
  eexists _, _. split; [reflexivity |]. split; [exact Hrev | reflexivity].
Defined.

(** C7 (as stated) fails when the second call carries an empty status: the
    call is rejected for the empty status, not as a duplicate. *)
Lemma resubmission_with_empty_status :
  ∃ σ1 evs,
    submitReport (deploy 1) (mkMsg 2 100) 7 "submitted" = Ok (σ1, evs) ∧
    submitReport σ1 (mkMsg 3 101) 7 "" = Revert "Status cannot be empty" ∧
    submitReport σ1 (mkMsg 3 101) 7 "" ≠ Revert DuplicateHash.
Proof.
  eexists _, _. split; [reflexivity |]. split; [reflexivity | discriminate].
Qed.

End IncidentProofSpec.

(** ** The ledger client *)
Module EthereumProofSpec.
Import EthereumProof.

Lemma transact_inv `{Ethers} signer now chain call chain' tx :
  transact signer now chain call = Return (chain', tx) →
  ∃ evs, IncidentProof.exec chain (IncidentProof.mkMsg signer now) call = Ok (chain', evs).
Proof.
  unfold transact. intros Ht.
  destruct (IncidentProof.exec _ _ _) as [[c evs] | reason]; [| discriminate].
  inversion Ht; subst. by exists evs.
Qed.

(** C10. After a successful [submitProof contentHash status], the record is
    stored on the ledger under [keccak256] of the UTF-8 bytes of the
    content-hash string, [getProof] for the same string finds it and
    returns the submitted status and the signer's address, and
    [updateProof] for the same string reaches the same record. *)
Theorem getProof_after_submitProof `{Ethers} c chain now contentHash status chain' tx :
  submitProof c chain now contentHash status = Return (chain', tx) →
  ∃ signer,
    contractWithSigner c = Some signer ∧
    IncidentProof.reports chain' !! keccak256 (toUtf8Bytes contentHash)
      = Some (IncidentProof.mkReport (keccak256 (toUtf8Bytes contentHash)) signer now
                (default "submitted" status) true) ∧
    getProof chain' contentHash
      = Return (mkProof (Number now) (default "submitted" status) signer) ∧
    ∀ now' newStatus, nonempty newStatus = true →
      ∃ chain'' tx',
        updateProof c chain' now' contentHash newStatus = Return (chain'', tx') ∧
        getProof chain'' contentHash = Return (mkProof (Number now) newStatus signer).
Proof.
  unfold submitProof. intros Hs.
  destruct (contractWithSigner c) as [signer |] eqn:Hc; [| discriminate].
  apply transact_inv in Hs as [evs Hs]. cbn in Hs.
  apply IncidentProofSpec.submitReport_inv in Hs as (Hh & _ & _ & ->).
  exists signer. split; [done |]. cbn [IncidentProof.msg_sender IncidentProof.block_timestamp].
  set (k := keccak256 (toUtf8Bytes contentHash)) in *.
  split; [by cbn; rewrite lookup_insert_eq |].
  split.
  - unfold getProof. fold k.
    rewrite IncidentProofSpec.getReport_exists
      by by rewrite IncidentProofSpec.report_at_insert.
    by rewrite IncidentProofSpec.report_at_insert.
  - intros now' newStatus Hne. unfold updateProof, transact. rewrite Hc. fold k.
    cbn [IncidentProof.exec]. unfold IncidentProof.updateStatus,
      IncidentProof.reportExists_modifier, IncidentProof.onlyReporter.
    rewrite IncidentProofSpec.report_at_insert.
    cbn [IncidentProof.exists_ IncidentProof.reporter IncidentProof.msg_sender].
    rewrite N.eqb_refl, Hne. cbn.
    eexists _, _. split; [reflexivity |].
    unfold getProof. fold k. unfold IncidentProof.set_status.
    rewrite IncidentProofSpec.getReport_exists;
      rewrite !IncidentProofSpec.report_at_insert; done.
Qed.

(** The theorem for a connected wallet on a freshly deployed ledger. *)
Lemma getProof_after_submitProof_witness :
  ∃ chain' tx,
    submitProof (H := Doubles.ethers) (mkClient (Some 5)) (IncidentProof.deploy 1) 100
                "3fa9c1" (Some "submitted") = Return (chain', tx) ∧
    getProof (H := Doubles.ethers) chain' "3fa9c1" = Return (mkProof 100 "submitted" 5).
Proof.
  destruct (getProof_after_submitProof (H := Doubles.ethers)
              (mkClient (Some 5)) (IncidentProof.deploy 1) 100 "3fa9c1" (Some "submitted")
              _ _ eq_refl) as (signer & Hc & _ & Hget & _).
  injection Hc as <-.
  eexists _, _. split; [reflexivity | exact Hget].
Defined.

End EthereumProofSpec.

(** ** The gateway *)
Module GatewaySpec.
Import Gateway.

(** *** The store *)

Lemma lookup_write_fields args : ∀ (h : gmap string string) f,
  foldl write h args !! f = from_option Some (h !! f) (written args f).
Proof.
  induction args as [| [k v] rest IH]; intros h f; cbn; [done |].
  rewrite IH. destruct (written rest f); cbn; [done |].
  unfold write; cbn. destruct (String.eqb_spec k f) as [-> | Hne]; cbn;
    rewrite ?lookup_insert_eq, ?lookup_insert_ne by done; done.
Qed.

(** Evaluates [written] at the concrete field names of a goal. *)
Ltac eval_written :=
  repeat match goal with
  | |- context [written ?fields ?f] =>
      let v := eval cbv beta iota zeta delta
                 [written String.eqb Ascii.eqb Bool.eqb fst snd] in (written fields f) in
      change (written fields f) with v
  end;
  cbn [from_option].

Lemma hGetAll_HSET db key args f :
  hGetAll (HSET db key args) key !! f
  = from_option Some (hGetAll db key !! f) (written args f).
Proof.
  unfold hGetAll at 1, HSET; cbn. rewrite lookup_insert_eq; cbn.
  apply lookup_write_fields.
Qed.

Lemma hGetAll_HSET_ne db key key' args :
  key ≠ key' → hGetAll (HSET db key args) key' = hGetAll db key'.
Proof. intros Hne. unfold hGetAll, HSET; cbn. by rewrite lookup_insert_ne. Qed.

Lemma hGetAll_lPush db key value key' :
  hGetAll (lPush db key value) key' = hGetAll db key'.
Proof. reflexivity. Qed.

Lemma report_result_keys a b : "report:" ++ a ≠ "result:" ++ b.
Proof. intros Heq. vm_compute in Heq. congruence. Qed.

Lemma result_report_keys a b : "result:" ++ a ≠ "report:" ++ b.
Proof. intros Heq. vm_compute in Heq. congruence. Qed.

(** [getStatus] reads the report hash and the [redactionSummary] field of
    the result hash under the given identifier, and nothing else. *)
Lemma getStatus_ext `{JavaScript} srv1 srv2 reportId :
  hGetAll (redis srv1) ("report:" ++ reportId) = hGetAll (redis srv2) ("report:" ++ reportId) →
  hGetAll (redis srv1) ("result:" ++ reportId) !! "redactionSummary"
  = hGetAll (redis srv2) ("result:" ++ reportId) !! "redactionSummary" →
  getStatus srv1 reportId = getStatus srv2 reportId.
Proof. intros Hrep Hres. unfold getStatus. by rewrite Hrep, Hres. Qed.

(** *** Submission *)

(** A submission without attachments whose envelope is complete: with a
    transaction hash the record is written; without one the job is queued
    and the write of the record throws. *)
Lemma submit_no_files srv env ed wk ch tx :
  truthy ed = true → nonempty wk = true → nonempty ch = true →
  submit srv env (mkSubmitRequest (Some ed) (Some wk) (Some ch) tx []) =
    let queued := lPush (redis srv) "gpu-worker-queue"
                    (JSON_stringify (jobData_of env ed wk ch [])) in
    match tx with
    | Some tx =>
        (mkServer
           (HSET queued ("report:" ++ uuid_report env)
              [("reportId", uuid_report env);
               ("contentHash", ch);
               ("ethTxHash", tx);
               ("timestamp", now_received env);
               ("status", "received");
               ("filesCount", "0");
               ("jobData", JSON_stringify (jobData_of env ed wk ch []))])
           (s3 srv),
         res_json (JObj [("reportId", JStr (uuid_report env));
                         ("status", JStr "queued");
                         ("message", JStr "Report received and queued for processing")]))
    | None => (mkServer queued (s3 srv), internal_error)
    end.
Proof.
  intros Hed Hwk Hch. unfold submit; cbn [encryptedData wrappedKey contentHash files ethTxHash].
  rewrite Hed, Hwk, Hch. by destruct tx.
Qed.

Lemma getStatus_after_submit `{JavaScript} srv env ed wk ch tx :
  truthy ed = true → nonempty wk = true → nonempty ch = true →
  nonempty (uuid_report env) = true →
  hashes (redis srv) !! ("result:" ++ uuid_report env) = None →
  getStatus (submit srv env (mkSubmitRequest (Some ed) (Some wk) (Some ch) (Some tx) [])).1
            (uuid_report env)
  = res_json (obj [("reportId", Some (JStr (uuid_report env)));
                   ("status", Some (JStr "received"));
                   ("timestamp", Some (JStr (now_received env)));
                   ("filesCount", Some (JNum (default 0%Z (parseInt "0"))));
                   ("redactionPreview", Some JNull);
                   ("ethTxHash", Some (JStr tx))]).
Proof.
  intros Hed Hwk Hch Hid Hfresh.
  rewrite submit_no_files by done. unfold getStatus. cbn [fst redis].
  rewrite !hGetAll_HSET, hGetAll_HSET_ne by apply report_result_keys.
  rewrite !hGetAll_lPush.
  replace (hGetAll (redis srv) ("result:" ++ uuid_report env)) with (∅ : gmap string string)
    by (unfold hGetAll; by rewrite Hfresh).
  rewrite lookup_empty. eval_written. cbn [truthy_str]. rewrite Hid. reflexivity.
Qed.

(** C1 (where the code departs from the claim). A submission without
    attachments whose three envelope fields are present and which carries
    a transaction hash is answered with code 200, the report identifier
    drawn for it and the status [queued]; a status query for that
    identifier right afterwards is answered with the stored status, which
    is [received], not [queued]. Without a transaction hash the job is
    queued all the same, but the write of the record throws: the answer is
    500, no hash is written, and a status query for an identifier the
    store held no record of is answered 404. *)
Theorem submit_answers_queued_stores_received `{JavaScript} srv env ed wk ch tx :
  truthy ed = true → nonempty wk = true → nonempty ch = true →
  nonempty (uuid_report env) = true →
  hashes (redis srv) !! ("result:" ++ uuid_report env) = None →
  let r := submit srv env (mkSubmitRequest (Some ed) (Some wk) (Some ch) tx []) in
  match tx with
  | Some _ =>
      code r.2 = 200 ∧
      jfield "reportId" (body r.2) = Some (JStr (uuid_report env)) ∧
      jfield "status" (body r.2) = Some (JStr "queued") ∧
      code (getStatus r.1 (uuid_report env)) = 200 ∧
      jfield "status" (body (getStatus r.1 (uuid_report env))) = Some (JStr "received")
  | None =>
      r.2 = internal_error ∧
      lists (redis r.1) !! "gpu-worker-queue"
        = Some (JSON_stringify (jobData_of env ed wk ch [])
                :: default [] (lists (redis srv) !! "gpu-worker-queue")) ∧
      hashes (redis r.1) = hashes (redis srv) ∧
      (hashes (redis srv) !! ("report:" ++ uuid_report env) = None →
       code (getStatus r.1 (uuid_report env)) = 404)
  end.
Proof.
  intros Hed Hwk Hch Hid Hfresh r. subst r. destruct tx as [tx |].
  - rewrite getStatus_after_submit by done.
    rewrite submit_no_files by done.
    repeat split.
  - rewrite submit_no_files by done. cbn.
    split; [done |]. split; [by rewrite lookup_insert_eq |]. split; [done |].
    intros Hnone. unfold getStatus, hGetAll; cbn. by rewrite Hnone.
Qed.

(** The theorem at the submission scenario, on an empty store. *)
Lemma submit_answers_queued_stores_received_witness :
  let r := submit Doubles.server Doubles.env (Doubles.request "WK1" []) in
  jfield "reportId" (body r.2) = Some (JStr "r-1") ∧
  jfield "status" (body r.2) = Some (JStr "queued") ∧
  jfield "status" (body (getStatus (H := Doubles.javascript) r.1 "r-1"))
    = Some (JStr "received").
Proof.
  destruct (submit_answers_queued_stores_received (H := Doubles.javascript)
              Doubles.server Doubles.env (JStr "AB12") "WK1" "H" (Some "0x7e57")
              eq_refl eq_refl eq_refl eq_refl eq_refl) as (_ & Hid & Hq & _ & Hr).
  exact (conj Hid (conj Hq Hr)).
Defined.

(** *** The result webhook *)

(** The two ways a callback ends. *)
Lemma webhook_cases srv now b :
  webhook srv now b =
    let db := HSET (redis srv) ("report:" ++ wb_reportId b) [("status", wb_status b)] in
    match wb_redactionSummary b, wb_processedFiles b with
    | Some summary, Some processed =>
        (mkServer
           (HSET db ("result:" ++ wb_reportId b)
              [("redactionSummary", JSON_stringify summary);
               ("processedFiles", JSON_stringify processed);
               ("completedAt", now)])
           (s3 srv),
         res_json (JObj [("success", JBool true)]))
    | _, _ => (mkServer db (s3 srv), webhook_failed)
    end.
Proof.
  unfold webhook, hSet; cbn.
  by destruct (wb_redactionSummary b), (wb_processedFiles b).
Qed.


Lemma webhook_report_hash srv now b f :
  hGetAll (redis (webhook srv now b).1) ("report:" ++ wb_reportId b) !! f
  = if String.eqb "status" f then Some (wb_status b)
    else hGetAll (redis srv) ("report:" ++ wb_reportId b) !! f.
Proof.
  rewrite webhook_cases.
  destruct (wb_redactionSummary b), (wb_processedFiles b); cbn [fst redis];
    rewrite ?(hGetAll_HSET_ne _ ("result:" ++ _)) by apply result_report_keys;
    rewrite hGetAll_HSET; cbn [written fst snd]; by destruct (String.eqb "status" f).
Qed.


Lemma webhook_other_hash srv now b key :
  key ≠ "report:" ++ wb_reportId b → key ≠ "result:" ++ wb_reportId b →
  hGetAll (redis (webhook srv now b).1) key = hGetAll (redis srv) key.
Proof.
  intros Hrep Hres. rewrite webhook_cases.
  destruct (wb_redactionSummary b), (wb_processedFiles b); cbn [fst redis];
    by rewrite !hGetAll_HSET_ne.
Qed.

(** C2 (as amended). A result callback overwrites the stored status with
    the status it carries, whatever the stored status was: afterwards the
    status field of the report's hash is the callback's status, and a
    status query that is answered with code 200 reports it. A record that
    was [completed] or [failed] is therefore regressed by a later callback
    carrying [processing] or [queued]. *)
Theorem webhook_overwrites_status `{JavaScript} srv now b :
  hGetAll (redis (webhook srv now b).1) ("report:" ++ wb_reportId b) !! "status"
    = Some (wb_status b) ∧
  (code (getStatus (webhook srv now b).1 (wb_reportId b)) = 200 →
   jfield "status" (body (getStatus (webhook srv now b).1 (wb_reportId b)))
     = Some (JStr (wb_status b))).
Proof.
  split; [by rewrite webhook_report_hash |].
  unfold getStatus. rewrite !webhook_report_hash. cbn [String.eqb Ascii.eqb Bool.eqb].
  destruct (negb _); [discriminate |].
  destruct (match hGetAll _ _ !! "redactionSummary" with Some _ => _ | None => _ end);
    [| discriminate].
  reflexivity.
Qed.

(** C2 (as stated) fails: a report that a first callback completed is put
    back to [processing] by a later one. *)
Lemma completed_report_regresses :
  let s1 := (submit Doubles.server Doubles.env (Doubles.request "WK1" [])).1 in
  let s2 := (webhook s1 "2024-01-01T00:01:00.000Z" (Doubles.callback "completed")).1 in
  let s3 := (webhook s2 "2024-01-01T00:02:00.000Z" (Doubles.callback "processing")).1 in
  jfield "status" (body (getStatus (H := Doubles.javascript) s2 "r-1"))
    = Some (JStr "completed") ∧
  jfield "status" (body (getStatus (H := Doubles.javascript) s3 "r-1"))
    = Some (JStr "processing") ∧
  hGetAll (redis s2) "report:r-1" !! "status" = Some "completed" ∧
  hGetAll (redis s3) "report:r-1" !! "status" = Some "processing".
Proof. vm_compute. repeat split. Qed.











(** *** Attachments *)

Lemma uploadFiles_spec reportId wrappedKey env todo : ∀ i store fileUrls,
  ∃ ups,
    objects (uploadFiles reportId wrappedKey env i todo store fileUrls).1
      = (objects store ++ ups)%list ∧
    upload_result (uploadFiles reportId wrappedKey env i todo store fileUrls).1
      = upload_result store ∧
    Forall2 (stored_as wrappedKey) (take (length ups) todo) ups ∧
    (is_Some (uploadFiles reportId wrappedKey env i todo store fileUrls).2 →
     length ups = length todo).
Proof.
  induction todo as [| file rest IH]; intros i store fileUrls; cbn [uploadFiles].
  - exists []. cbn. rewrite app_nil_r. repeat split; constructor.
  - destruct (upload_result store _) as [location |] eqn:Hup; cbn [fst snd].
    + edestruct IH as (ups & Hobj & Hres & Hall & Hlen).
      eexists (_ :: ups). rewrite Hobj, Hres. cbn [objects upload_result].
      rewrite <- app_assoc. split; [reflexivity |]. split; [reflexivity |].
      split; [| intros Hsome; cbn; f_equal; by apply Hlen].
      cbn. constructor; [by split | done].
    + exists []. cbn. rewrite app_nil_r. repeat split; [constructor |].
      intros [? ?]; discriminate.
Qed.

(** C6 (as amended). Each attachment of a submission is put into the blob
    store encrypted by the gateway with the cipher [aes-256-gcm] keyed by
    the [wrappedKey] field of the client's request, the same for all
    attachments of the request; the put always asks the store for its own
    server-side encryption ([AES256]). When the submission is answered
    with code 200, every attachment has been put. *)
Theorem attachments_encrypted_under_wrappedKey srv env req :
  ∃ ups,
    objects (s3 (submit srv env req).1) = (objects (s3 srv) ++ ups)%list ∧
    Forall2 (stored_as (default "" (wrappedKey req))) (take (length ups) (files req)) ups ∧
    (code (submit srv env req).2 = 200 → length ups = length (files req)).
Proof.
  unfold submit.
  destruct (encryptedData req) as [ed |], (wrappedKey req) as [wk |],
    (contentHash req) as [ch |];
    try (exists []; cbn; rewrite app_nil_r; repeat split; [constructor | discriminate]).
  destruct (negb (truthy ed) || negb (nonempty wk) || negb (nonempty ch)).
  { exists []. cbn. rewrite app_nil_r. repeat split; [constructor | discriminate]. }
  destruct (uploadFiles_spec (uuid_report env) wk env (files req) 0 (s3 srv) [])
    as (ups & Hobj & _ & Hall & Hlen).
  exists ups.
  destruct (uploadFiles _ _ _ _ _ _ _) as [store [fileUrls |]]; cbn [fst snd] in *.
  - destruct (hSet _ _ _); cbn; repeat split; try done; intros _; by apply Hlen.
  - cbn. repeat split; [done | done | discriminate].
Qed.

(** C6 (as stated) fails: two submissions of the same file that differ only
    in the client-supplied [wrappedKey] are stored under different key
    material, which is that client-supplied value. *)
Lemma at_rest_key_follows_request :
  let s1 := (submit Doubles.server Doubles.env (Doubles.request "WK1" [Doubles.photo])).1 in
  let s2 := (submit Doubles.server Doubles.env (Doubles.request "WK2" [Doubles.photo])).1 in
  map (λ up, cipher_password (Body up)) (objects (s3 s1)) = ["WK1"] ∧
  map (λ up, cipher_password (Body up)) (objects (s3 s2)) = ["WK2"] ∧
  map Body (objects (s3 s1)) ≠ map Body (objects (s3 s2)).
Proof. vm_compute. repeat split. discriminate. Qed.

End GatewaySpec.

(** ** JSON text *)
Module JsonSpec.

Lemma append_assoc (a b c : string) : (a ++ b) ++ c = a ++ (b ++ c).
Proof.
  induction a as [| x a IH]; [done |].
  change (String x ((a ++ b) ++ c) = String x (a ++ (b ++ c))). by rewrite IH.
Qed.

Lemma append_cons x (a b : string) : String x a ++ b = String x (a ++ b).
Proof. reflexivity. Qed.

Lemma append_nil (b : string) : "" ++ b = b.
Proof. reflexivity. Qed.

Ltac flatten_in H :=
  repeat first [rewrite append_assoc in H | rewrite append_cons in H | rewrite append_nil in H].

Lemma unescape_head_escape_char c rest :
  unescape_head (escape_char c ++ rest) = Some (c, rest).
Proof. destruct c as [[] [] [] [] [] [] [] []]; reflexivity. Qed.

(** The inside of a string literal, up to its closing quote, determines the
    string and what follows the literal. *)
Lemma escape_terminated_inj s1 : ∀ s2 r1 r2,
  escape s1 ++ String dquote r1 = escape s2 ++ String dquote r2 → s1 = s2 ∧ r1 = r2.
Proof.
  induction s1 as [| c1 s1 IH]; intros [| c2 s2] r1 r2 Heq; cbn [escape] in Heq.
  - rewrite !append_nil in Heq. by injection Heq as ->.
  - rewrite append_nil, append_assoc in Heq.
    apply (f_equal unescape_head) in Heq. rewrite unescape_head_escape_char in Heq.
    discriminate.
  - rewrite append_nil, append_assoc in Heq.
    apply (f_equal unescape_head) in Heq. rewrite unescape_head_escape_char in Heq.
    discriminate.
  - rewrite !append_assoc in Heq.
    apply (f_equal unescape_head) in Heq. rewrite !unescape_head_escape_char in Heq.
    injection Heq as -> Heq. by destruct (IH _ _ _ Heq) as [-> ->].
Qed.

Lemma quote_unfold (s : string) : quote s = String dquote (escape s ++ String dquote "").
Proof. reflexivity. Qed.

End JsonSpec.

(** ** Client-side crypto *)
Module E2EECryptoSpec.
Import E2EECrypto JsonSpec.

(** Brings the text of a serialised encrypted report into the form of a
    list of characters interrupted only by the escaped field values. *)
Ltac text_normal H :=
  unfold hashInput, EncryptedReport_json, obj in H; cbn in H;
  rewrite !quote_unfold in H;
  flatten_in H;
  repeat match type of H with
  | context [escape (String ?c ?s)] =>
      let v := eval vm_compute in (escape (String c s)) in
      change (escape (String c s)) with v in H
  end;
  flatten_in H.

(** The text that is hashed determines all three fields of the encrypted
    report. *)
Lemma hashInput_inj enc1 enc2 :
  hashInput (EncryptedReport_json enc1) = hashInput (EncryptedReport_json enc2) →
  enc1 = enc2.
Proof.
  destruct enc1 as [ct1 [iv1 |] [salt1 |]], enc2 as [ct2 [iv2 |] [salt2 |]]; intros H;
    text_normal H; simplify_eq;
    repeat (apply escape_terminated_inj in H as [-> H]; simplify_eq);
    reflexivity.
Qed.

(** C5 (as amended). [hashContent] hashes the JSON text of the value it is
    given. For an encrypted report, the object the submission form hands
    it, that is the text of the ciphertext together with the [iv] and the
    [salt]: two encrypted reports are hashed from the same text exactly
    when they agree in all three. The plaintext is no input. *)
Theorem contentHash_covers_encrypted_report {W E : Type} `{CryptoJS W E}
    (enc1 enc2 : EncryptedReport) :
  hashContent (EncryptedReport_json enc1)
    = WordArray_toString (SHA3 (hashInput (EncryptedReport_json enc1)) 256%nat) ∧
  (hashInput (EncryptedReport_json enc1) = hashInput (EncryptedReport_json enc2)
   ↔ ciphertext enc1 = ciphertext enc2 ∧ iv enc1 = iv enc2 ∧ salt enc1 = salt enc2).
Proof.
  split; [reflexivity |]. split.
  - by intros ->%hashInput_inj.
  - destruct enc1, enc2; cbn. by intros (-> & -> & ->).
Qed.

(** C5 (as stated) fails: the text that is hashed is not the ciphertext,
    and two encrypted reports with the same ciphertext and different [iv]
    are hashed from different texts (to different hashes, where the hash
    function tells them apart). *)
Lemma hash_input_is_not_the_ciphertext :
  let enc1 := mkEncryptedReport "AB12" (Some "00") (Some "11") in
  let enc2 := mkEncryptedReport "AB12" (Some "01") (Some "11") in
  ciphertext enc1 = ciphertext enc2 ∧
  hashInput (EncryptedReport_json enc1) ≠ ciphertext enc1 ∧
  hashInput (EncryptedReport_json enc1) ≠ hashInput (EncryptedReport_json enc2) ∧
  hashContent (H := Doubles.cryptojs) (EncryptedReport_json enc1)
    ≠ hashContent (H := Doubles.cryptojs) (EncryptedReport_json enc2).
Proof. vm_compute. repeat split; discriminate. Qed.

(** C8 (where the code departs from the claim). [encryptReport] asks the
    library for a block mode it does not have, so the cipher cannot be set
    up: on every report, key and randomness the call throws a type error
    and produces no encrypted report. [decryptReport] names the same mode
    and throws a type error on every encrypted report and key. There is
    no output of the one to hand to the other. *)
Theorem encryptReport_throws {W E : Type} `{CryptoJS W E} `{JavaScript}
    (data : json) (key : string) (e : E) (enc : EncryptedReport) (key' : string) :
  encryptReport data key e = Throw TypeError ∧
  decryptReport enc key' = Throw TypeError.
Proof.
  split; [reflexivity |].
  by destruct enc as [ct [iv |] [salt |]].
Qed.






End E2EECryptoSpec.

(** * Further properties *)

(** ** The ledger contract *)
Module LedgerSpec.
Import IncidentProof IncidentProofSpec Ledger.

(** Every successful transaction is a submission, a status change of an
    existing report, or a change of owner. *)
Lemma exec_cases σ m c σ' evs :
  exec σ m c = Ok (σ', evs) →
  (∃ h st, c = call_submitReport h st ∧ h ≠ 0 ∧ exists_ (report_at σ h) = false ∧
     σ' = mkState (owner σ)
            (<[h := mkReport h (msg_sender m) (block_timestamp m) st true]> (reports σ))
            (<[msg_sender m := (reports_of σ (msg_sender m) ++ [h])%list]>
               (reportsByAddress σ))) ∨
  (∃ h st, target c = Some h ∧ exists_ (report_at σ h) = true ∧
     (msg_sender m = reporter (report_at σ h) ∨ msg_sender m = owner σ) ∧
     σ' = set_status σ h st) ∨
  (target c = None ∧ msg_sender m = owner σ ∧
   reports σ' = reports σ ∧ reportsByAddress σ' = reportsByAddress σ).
Proof.
  intros Hc. destruct c as [h st | h st | h st | a |]; cbn in Hc.
  - left. apply submitReport_inv in Hc as (Hh & _ & Hfree & ->). by exists h, st.
  - right; left. unfold updateStatus, reportExists_modifier, onlyReporter in Hc.
    do 3 split_require Hc. inversion Hc; subst. exists h, st. repeat split; [done |].
    apply orb_true_iff in cond0 as [Heq | Heq]; apply N.eqb_eq in Heq; auto.
  - right; left. unfold emergencyUpdateStatus, reportExists_modifier, onlyOwner in Hc.
    do 2 split_require Hc. inversion Hc; subst. exists h, st. repeat split; [done |].
    right. symmetry. by apply N.eqb_eq.
  - right; right. unfold transferOwnership, onlyOwner in Hc.
    do 2 split_require Hc. inversion Hc; subst. repeat split. symmetry. by apply N.eqb_eq.
  - right; right. unfold renounceOwnership, onlyOwner in Hc.
    split_require Hc. inversion Hc; subst. repeat split. symmetry. by apply N.eqb_eq.
Qed.

(** A property kept by every successful transaction holds after any
    sequence of transactions. *)
Lemma run_invariant (P : State → Prop) txs : ∀ σ,
  (∀ σ m c σ' evs, P σ → exec σ m c = Ok (σ', evs) → P σ') →
  P σ → P (run σ txs).
Proof.
  induction txs as [| [m c] txs IH]; intros σ Hstep Hσ; [done |].
  change (run σ ((m, c) :: txs)) with (run (step σ (m, c)) txs).
  apply IH; [done |]. unfold step; cbn.
  destruct (exec σ m c) as [[σ' evs] |] eqn:Hc; [by eapply Hstep | done].
Qed.

Lemma report_at_set_status σ h st h' :
  report_at (set_status σ h st) h'
  = if decide (h = h')
    then mkReport (contentHash (report_at σ h)) (reporter (report_at σ h))
                  (timestamp (report_at σ h)) st (exists_ (report_at σ h))
    else report_at σ h'.
Proof.
  unfold set_status. case_decide; subst.
  - by rewrite report_at_insert.
  - by rewrite report_at_insert_ne.
Qed.

(** X1. [submitReport] succeeds exactly for a non-zero hash that is not yet
    on the ledger, with a non-empty status; it then emits the one event
    [ReportSubmitted] with the hash, the sender, the block time and the
    status, and [getReport] returns what was submitted. *)
Theorem submitReport_succeeds_iff σ m h st :
  ((∃ σ' evs, submitReport σ m h st = Ok (σ', evs)) ↔
   h ≠ 0 ∧ st ≠ "" ∧ reportExists σ h = false) ∧
  (∀ σ' evs, submitReport σ m h st = Ok (σ', evs) →
     evs = [ReportSubmitted h (msg_sender m) (block_timestamp m) st] ∧
     reportExists σ' h = true ∧
     getReport σ' h = Ok (block_timestamp m, st, msg_sender m)).
Proof.
  split; [split |].
  - intros (σ' & evs & Hs). apply submitReport_inv in Hs as (Hh & Hst & Hfree & _).
    repeat split; [done | by destruct st | done].
  - intros (Hh & Hst & Hfree). unfold submitReport, reportExists in *.
    apply N.eqb_neq in Hh. rewrite Hh, Hfree. destruct st; [done |]. cbn. eauto.
  - intros σ' evs Hs. pose proof Hs as Hinv.
    apply submitReport_inv in Hinv as (Hh & Hst & Hfree & ->).
    unfold submitReport in Hs. apply N.eqb_neq in Hh. rewrite Hh, Hst, Hfree in Hs.
    cbn in Hs. inversion Hs; subst. split; [done |].
    unfold reportExists. rewrite getReport_exists; rewrite report_at_insert; done.
Qed.

(** X2. On a ledger reached from its deployment by any transactions, the
    zero hash is never on record, and every report on record is filed
    under its own content hash. *)
Theorem reports_are_filed_under_their_hash deployer txs :
  reportExists (run (deploy deployer) txs) 0 = false ∧
  ∀ h, reportExists (run (deploy deployer) txs) h = true →
       contentHash (report_at (run (deploy deployer) txs) h) = h.
Proof.
  unfold reportExists.
  apply (run_invariant (λ σ, exists_ (report_at σ 0) = false ∧
           ∀ h, exists_ (report_at σ h) = true → contentHash (report_at σ h) = h)).
  - intros σ m c σ' evs [Hzero Hkey] Hc.
    apply exec_cases in Hc as [(h & st & -> & Hh & Hfree & ->)
                              | [(h & st & _ & Hex & _ & ->) | (_ & _ & Hr & _)]].
    + split.
      * by rewrite report_at_insert_ne.
      * intros h'. destruct (decide (h = h')) as [<- | Hne].
        -- by rewrite report_at_insert.
        -- rewrite report_at_insert_ne by done. apply Hkey.
    + split.
      * rewrite report_at_set_status. case_decide; subst; [by cbn | done].
      * intros h'. rewrite report_at_set_status. case_decide; subst; cbn; auto.
    + unfold report_at. rewrite Hr. split; [apply Hzero | apply Hkey].
  - split; [done |]. intros h. unfold report_at; cbn. by rewrite lookup_empty.
Qed.

(** X3. Transactions sent by addresses other than a report's reporter and
    the contract's owner, whatever they call, change neither the report
    nor the owner. *)
Theorem third_parties_change_nothing σ h txs :
  reportExists σ h = true →
  Forall (sent_by_neither (reporter (report_at σ h)) (owner σ)) txs →
  report_at (run σ txs) h = report_at σ h ∧ owner (run σ txs) = owner σ.
Proof.
  unfold reportExists. revert σ.
  induction txs as [| [m c] txs IH]; intros σ Hex Hall; [done |].
  apply Forall_cons in Hall as [[Hrep Hown] Hall]. cbn in Hrep, Hown.
  change (run σ ((m, c) :: txs)) with (run (step σ (m, c)) txs).
  assert (Hstep : report_at (step σ (m, c)) h = report_at σ h
                  ∧ owner (step σ (m, c)) = owner σ).
  { unfold step; cbn. destruct (exec σ m c) as [[σ' evs] |] eqn:Hc; [| done].
    apply exec_cases in Hc as [(h' & st & -> & _ & Hfree & ->)
                              | [(h' & st & _ & Hex' & Hauth & ->) | (_ & Hauth & _)]].
    - split; [| done]. rewrite report_at_insert_ne; [done | congruence].
    - split; [| done]. rewrite report_at_set_status. case_decide; subst; [| done].
      destruct Hauth; congruence.
    - congruence. }
  destruct Hstep as [Hr Ho].
  destruct (IH (step σ (m, c))) as [Hr' Ho'].
  - by rewrite Hr.
  - by rewrite Hr, Ho.
  - split; congruence.
Qed.

Lemma third_parties_change_nothing_witness :
  let σ := run (deploy 1) [(mkMsg 2 100, call_submitReport 7 "submitted")] in
  let txs := [(mkMsg 3 101, call_updateStatus 7 "closed");
              (mkMsg 3 102, call_emergencyUpdateStatus 7 "closed");
              (mkMsg 4 103, call_submitReport 7 "mine");
              (mkMsg 4 104, call_transferOwnership 4)] in
  getReport (run σ txs) 7 = Ok (100, "submitted", 2) ∧ owner (run σ txs) = 1.
Proof.
  destruct (third_parties_change_nothing
              (run (deploy 1) [(mkMsg 2 100, call_submitReport 7 "submitted")]) 7
              [(mkMsg 3 101, call_updateStatus 7 "closed");
               (mkMsg 3 102, call_emergencyUpdateStatus 7 "closed");
               (mkMsg 4 103, call_submitReport 7 "mine");
               (mkMsg 4 104, call_transferOwnership 4)]) as [Hr Ho].
  - reflexivity.
  - repeat constructor; discriminate.
  - split; [| exact Ho]. rewrite getReport_exists; rewrite Hr; reflexivity.
Defined.

(** X4. After a successful submission, the reporter can move the status on
    to any non-empty status: the call emits [StatusUpdated] with the
    previous and the new status and the reporter's address, and
    [getReport] returns the new status with the original timestamp and
    reporter. *)
Theorem reporter_updates_status σ m h st σ1 evs m' st' :
  submitReport σ m h st = Ok (σ1, evs) →
  msg_sender m' = msg_sender m →
  st' ≠ "" →
  ∃ σ2,
    updateStatus σ1 m' h st' = Ok (σ2, [StatusUpdated h st st' (msg_sender m)]) ∧
    getReport σ2 h = Ok (block_timestamp m, st', msg_sender m).
Proof.
  intros Hs Hsender Hst'. apply submitReport_inv in Hs as (_ & _ & _ & ->).
  unfold updateStatus, reportExists_modifier, onlyReporter.
  rewrite report_at_insert. cbn [exists_ reporter status]. rewrite Hsender, N.eqb_refl.
  destruct st' as [| c st']; [done |]. cbn.
  eexists. split; [reflexivity |].
  rewrite getReport_exists; rewrite report_at_set_status, decide_True by done;
    rewrite report_at_insert; done.
Qed.

Lemma reporter_updates_status_witness :
  ∃ σ1 evs σ2,
    submitReport (deploy 1) (mkMsg 2 100) 7 "submitted" = Ok (σ1, evs) ∧
    updateStatus σ1 (mkMsg 2 150) 7 "processing"
      = Ok (σ2, [StatusUpdated 7 "submitted" "processing" 2]) ∧
    getReport σ2 7 = Ok (100, "processing", 2).
Proof.
  destruct (reporter_updates_status (deploy 1) (mkMsg 2 100) 7 "submitted" _ _
              (mkMsg 2 150) "processing" eq_refl eq_refl) as (σ2 & Hu & Hg);
    [discriminate |].
  eexists _, _, σ2. split; [reflexivity |]. split; [exact Hu | exact Hg].
Defined.

(** X5. The two ways of changing a status do not validate alike: for a
    report on record, the owner's [updateStatus] with an empty status is
    refused, while the owner's [emergencyUpdateStatus] with an empty status
    goes through and leaves the report with an empty status. *)
Theorem emergency_update_accepts_empty_status σ m h :
  reportExists σ h = true →
  msg_sender m = owner σ →
  updateStatus σ m h "" = Revert "Status cannot be empty" ∧
  ∃ σ',
    emergencyUpdateStatus σ m h ""
      = Ok (σ', [StatusUpdated h (status (report_at σ h)) "" (owner σ)]) ∧
    getReport σ' h = Ok (timestamp (report_at σ h), "", reporter (report_at σ h)).
Proof.
  unfold reportExists. intros Hex Hown. split.
  - unfold updateStatus, reportExists_modifier, onlyReporter.
    rewrite Hex, Hown, N.eqb_refl, orb_true_r. reflexivity.
  - unfold emergencyUpdateStatus, reportExists_modifier, onlyOwner.
    rewrite Hex, Hown, N.eqb_refl. cbn. eexists. split; [reflexivity |].
    rewrite getReport_exists; rewrite report_at_set_status, decide_True by done; done.
Qed.

Lemma emergency_update_accepts_empty_status_witness :
  let σ := run (deploy 1) [(mkMsg 2 100, call_submitReport 7 "submitted")] in
  updateStatus σ (mkMsg 1 101) 7 "" = Revert "Status cannot be empty" ∧
  getReport (run σ [(mkMsg 1 101, call_emergencyUpdateStatus 7 "")]) 7 = Ok (100, "", 2).
Proof.
  destruct (emergency_update_accepts_empty_status
              (run (deploy 1) [(mkMsg 2 100, call_submitReport 7 "submitted")])
              (mkMsg 1 101) 7 eq_refl eq_refl) as (Hu & _).
  split; [exact Hu | reflexivity].
Defined.

Lemma indexed_exec σ m c σ' evs :
  indexed σ → exec σ m c = Ok (σ', evs) → indexed σ'.
Proof.
  intros [Hidx Hnd] Hc.
  apply exec_cases in Hc as [(h & st & -> & Hh & Hfree & ->)
                            | [(h & st & _ & Hex & _ & ->) | (_ & _ & Hr & Hra)]].
  - assert (Hnew : ∀ a, h ∉ reports_of σ a).
    { intros a Hin. apply Hidx in Hin as [Hex _]. congruence. }
    assert (Hof : ∀ a, reports_of
               (mkState (owner σ)
                  (<[h := mkReport h (msg_sender m) (block_timestamp m) st true]> (reports σ))
                  (<[msg_sender m := (reports_of σ (msg_sender m) ++ [h])%list]>
                     (reportsByAddress σ))) a
             = if decide (msg_sender m = a) then (reports_of σ a ++ [h])%list
               else reports_of σ a).
    { intros a. unfold reports_of at 1; cbn. case_decide; subst.
      - by rewrite lookup_insert_eq.
      - by rewrite lookup_insert_ne. }
    split.
    + intros a h'. rewrite Hof. destruct (decide (h = h')) as [<- | Hne].
      * rewrite report_at_insert; cbn. case_decide; subst.
        -- rewrite elem_of_app, list_elem_of_singleton. intuition congruence.
        -- split; [intros Hin; by apply Hnew in Hin | intuition congruence].
      * rewrite report_at_insert_ne by done. fold (report_at σ h').
        case_decide; subst; [| apply Hidx].
        rewrite elem_of_app, list_elem_of_singleton, Hidx. intuition congruence.
    + intros a. rewrite Hof. case_decide; [| apply Hnd].
      apply NoDup_app. split; [apply Hnd |]. split; [| apply NoDup_singleton].
      intros x Hin ->%list_elem_of_singleton. by apply Hnew in Hin.
  - split; [| apply Hnd]. intros a h'. unfold reports_of; cbn.
    fold (reports_of σ a). rewrite Hidx, report_at_set_status.
    case_decide; subst; cbn; [by rewrite Hex |]. done.
  - split.
    + intros a h'. unfold reports_of, report_at. rewrite Hr, Hra. apply Hidx.
    + intros a. unfold reports_of. rewrite Hra. apply Hnd.
Qed.

(** X6. On a ledger reached from its deployment by any transactions,
    [getReportsByAddress a] lists exactly the hashes on record whose
    reporter is [a], each once; so [getReportCount a] is their number. *)
Theorem reports_by_address_is_an_index deployer txs a :
  (∀ h, h ∈ getReportsByAddress (run (deploy deployer) txs) a ↔
        reportExists (run (deploy deployer) txs) h = true ∧
        reporter (report_at (run (deploy deployer) txs) h) = a) ∧
  NoDup (getReportsByAddress (run (deploy deployer) txs) a) ∧
  getReportCount (run (deploy deployer) txs) a
    = N.of_nat (length (getReportsByAddress (run (deploy deployer) txs) a)).
Proof.
  assert (Hidx : indexed (run (deploy deployer) txs)).
  { apply run_invariant; [apply indexed_exec |]. split.
    - intros a' h. unfold reports_of, report_at; cbn. rewrite !lookup_empty; cbn.
      rewrite elem_of_nil. intuition congruence.
    - intros a'. unfold reports_of; cbn. rewrite lookup_empty. constructor. }
  destruct Hidx as [Hidx Hnd]. unfold getReportsByAddress, reportExists, getReportCount.
  split; [intros h; apply Hidx |]. split; [apply Hnd | reflexivity].
Qed.

(** X7. A transaction changes no report but the one it names; a change of
    owner changes no report at all. *)
Theorem transaction_touches_only_its_report σ m c h :
  target c ≠ Some h →
  report_at (step σ (m, c)) h = report_at σ h.
Proof.
  intros Hother. unfold step; cbn.
  destruct (exec σ m c) as [[σ' evs] |] eqn:Hc; [| done].
  apply exec_cases in Hc as [(h' & st & -> & _ & _ & ->)
                            | [(h' & st & Ht & _ & _ & ->) | (_ & _ & Hr & _)]].
  - rewrite report_at_insert_ne; [done | cbn in Hother; congruence].
  - rewrite report_at_set_status, decide_False; [done | congruence].
  - unfold report_at. by rewrite Hr.
Qed.

Lemma transaction_touches_only_its_report_witness :
  let σ := run (deploy 1) [(mkMsg 2 100, call_submitReport 7 "submitted")] in
  report_at (step σ (mkMsg 1 101, call_emergencyUpdateStatus 8 "closed")) 7 = report_at σ 7 ∧
  report_at (step σ (mkMsg 3 102, call_submitReport 9 "submitted")) 7 = report_at σ 7.
Proof.
  split; apply transaction_touches_only_its_report; discriminate.
Defined.

End LedgerSpec.

(** ** The ledger client *)
Module ClientSpec.
Import EthereumProof.

(** What a successful [submitProof] did to the ledger. *)
Lemma submitProof_inv `{Ethers} c chain now contentHash status chain' tx :
  submitProof c chain now contentHash status = Return (chain', tx) →
  ∃ signer,
    contractWithSigner c = Some signer ∧
    keccak256 (toUtf8Bytes contentHash) ≠ 0 ∧
    IncidentProof.report_at chain' (keccak256 (toUtf8Bytes contentHash))
      = IncidentProof.mkReport (keccak256 (toUtf8Bytes contentHash)) signer now
          (default "submitted" status) true ∧
    IncidentProof.owner chain' = IncidentProof.owner chain.
Proof.
  unfold submitProof. intros Hs.
  destruct (contractWithSigner c) as [signer |]; [| discriminate].
  apply EthereumProofSpec.transact_inv in Hs as [evs Hs]. cbn in Hs.
  apply IncidentProofSpec.submitReport_inv in Hs as (Hh & _ & _ & ->).
  exists signer. split; [done |]. split; [done |]. split; [| done].
  apply IncidentProofSpec.report_at_insert.
Qed.

(** X8. Once [submitProof] has succeeded for a content hash, a later
    [submitProof] with the default status, from any connected wallet and
    after any other ledger transactions, throws the contract's "Report
    already exists"; so it does for any other string with the same
    [keccak256]. *)
Theorem second_submitProof_is_refused `{Ethers}
    c chain now contentHash status chain' tx txs c' signer' now' contentHash' :
  submitProof c chain now contentHash status = Return (chain', tx) →
  contractWithSigner c' = Some signer' →
  keccak256 (toUtf8Bytes contentHash') = keccak256 (toUtf8Bytes contentHash) →
  submitProof c' (IncidentProof.run chain' txs) now' contentHash' None
    = Throw (CallException "Report already exists").
Proof.
  intros Hs Hc' Hk. apply submitProof_inv in Hs as (signer & _ & Hne & Hr & _).
  unfold submitProof, transact. rewrite Hc', Hk. cbn.
  unfold IncidentProof.submitReport.
  destruct (IncidentProofSpec.run_anchor txs chain' (keccak256 (toUtf8Bytes contentHash)))
    as (Hex & _); [by rewrite Hr |].
  rewrite Hr in Hex; cbn in Hex. apply N.eqb_neq in Hne. rewrite Hne, Hex. reflexivity.
Qed.

Lemma second_submitProof_is_refused_witness :
  ∃ chain' tx,
    submitProof (H := Doubles.ethers) (mkClient (Some 5)) (IncidentProof.deploy 1) 100
                "3fa9c1" None = Return (chain', tx) ∧
    submitProof (H := Doubles.ethers) (mkClient (Some 6)) chain' 200 "c19af3" None
      = Throw (CallException "Report already exists").
Proof.
  eexists _, _. split; [reflexivity |].
  exact (second_submitProof_is_refused (H := Doubles.ethers)
           (mkClient (Some 5)) (IncidentProof.deploy 1) 100 "3fa9c1" None _ _ []
           (mkClient (Some 6)) 6 200 "c19af3" eq_refl eq_refl eq_refl).
Defined.

(** X9. After a successful [submitProof], [updateProof] for the same
    content hash from a wallet that is neither the submitter's nor the
    contract owner's throws the contract's "Only reporter or owner can
    update", whatever the new status. *)
Theorem updateProof_by_stranger_is_refused `{Ethers}
    c chain now contentHash status chain' tx c' signer' now' newStatus :
  submitProof c chain now contentHash status = Return (chain', tx) →
  contractWithSigner c' = Some signer' →
  contractWithSigner c ≠ Some signer' →
  IncidentProof.owner chain ≠ signer' →
  updateProof c' chain' now' contentHash newStatus
    = Throw (CallException "Only reporter or owner can update").
Proof.
  intros Hs Hc' Hother Howner.
  apply submitProof_inv in Hs as (signer & Hc & _ & Hr & Ho).
  unfold updateProof, transact. rewrite Hc'. cbn.
  unfold IncidentProof.updateStatus, IncidentProof.reportExists_modifier,
    IncidentProof.onlyReporter.
  rewrite Hr, Ho. cbn.
  assert (Hrep : N.eqb signer signer' = false) by (apply N.eqb_neq; congruence).
  assert (Hown : N.eqb signer' (IncidentProof.owner chain) = false)
    by (apply N.eqb_neq; congruence).
  rewrite Hrep, Hown. reflexivity.
Qed.

Lemma updateProof_by_stranger_is_refused_witness :
  ∃ chain' tx,
    submitProof (H := Doubles.ethers) (mkClient (Some 5)) (IncidentProof.deploy 1) 100
                "3fa9c1" None = Return (chain', tx) ∧
    updateProof (H := Doubles.ethers) (mkClient (Some 6)) chain' 200 "3fa9c1" "closed"
      = Throw (CallException "Only reporter or owner can update").
Proof.
  eexists _, _. split; [reflexivity |].
  apply (updateProof_by_stranger_is_refused (H := Doubles.ethers)
           (mkClient (Some 5)) (IncidentProof.deploy 1) 100 "3fa9c1" None _ _
           (mkClient (Some 6)) 6 200 "closed" eq_refl eq_refl); discriminate.
Defined.

End ClientSpec.

(** ** The gateway: submissions *)
Module SubmissionSpec.
Import Gateway GatewaySpec Traffic.

(** The four ways a submission ends: refused for its envelope, failed in
    an upload, failed in the write of the record after the job has been
    queued, or carried out. *)
Lemma submit_cases srv env req :
  (valid_envelope req = false ∧ submit srv env req = (srv, missing_fields)) ∨
  (∃ ed wk ch,
     encryptedData req = Some ed ∧ wrappedKey req = Some wk ∧ contentHash req = Some ch ∧
     valid_envelope req = true ∧
     ((∃ store,
         uploadFiles (uuid_report env) wk env 0 (files req) (s3 srv) [] = (store, None) ∧
         submit srv env req = (mkServer (redis srv) store, internal_error)) ∨
      (∃ store fileUrls,
         uploadFiles (uuid_report env) wk env 0 (files req) (s3 srv) []
           = (store, Some fileUrls) ∧
         ((ethTxHash req = None ∧
           submit srv env req =
             (mkServer
                (lPush (redis srv) "gpu-worker-queue"
                   (JSON_stringify (jobData_of env ed wk ch fileUrls)))
                store,
              internal_error)) ∨
          (∃ tx,
             ethTxHash req = Some tx ∧
             submit srv env req =
               (mkServer
                  (HSET (lPush (redis srv) "gpu-worker-queue"
                           (JSON_stringify (jobData_of env ed wk ch fileUrls)))
                        ("report:" ++ uuid_report env)
                        [("reportId", uuid_report env);
                         ("contentHash", ch);
                         ("ethTxHash", tx);
                         ("timestamp", now_received env);
                         ("status", "received");
                         ("filesCount", pretty (length (files req)));
                         ("jobData", JSON_stringify (jobData_of env ed wk ch fileUrls))])
                  store,
                res_json (JObj [("reportId", JStr (uuid_report env));
                                ("status", JStr "queued");
                                ("message",
                                 JStr "Report received and queued for processing")]))))))).
Proof.
  unfold submit, valid_envelope.
  destruct (encryptedData req) as [ed |], (wrappedKey req) as [wk |],
    (contentHash req) as [ch |]; cbn;
    rewrite ?andb_false_r; try (left; by split).
  destruct (truthy ed), (nonempty wk), (nonempty ch); cbn; try (left; by split).
  right. exists ed, wk, ch. do 4 (split; [done |]).
  destruct (uploadFiles _ _ _ _ _ _ _) as [store [fileUrls |]].
  - right. exists store, fileUrls. split; [done |].
    destruct (ethTxHash req) as [tx |]; [right; by exists tx | by left].
  - left. by exists store.
Qed.

(** The loop over the attachments: what it puts, and how it ends. *)
Lemma uploadFiles_objects env wk todo : ∀ i store acc,
  ∃ ups,
    objects (uploadFiles (uuid_report env) wk env i todo store acc).1
      = (objects store ++ ups)%list ∧
    (∀ j up, ups !! j = Some up →
       ∃ file, todo !! j = Some file ∧
         up = uploadParams_for env (uuid_report env) wk (fileKey env (i + j) file) file) ∧
    (∀ fileUrls, (uploadFiles (uuid_report env) wk env i todo store acc).2 = Some fileUrls →
       length ups = length todo ∧ length fileUrls = (length acc + length todo)%nat) ∧
    ((uploadFiles (uuid_report env) wk env i todo store acc).2 = None →
       ∃ file, todo !! length ups = Some file ∧
         upload_result store
           (uploadParams_for env (uuid_report env) wk (fileKey env (i + length ups) file) file)
         = None).
Proof.
  induction todo as [| file rest IH]; intros i store acc; cbn [uploadFiles].
  - exists []. cbn. rewrite app_nil_r. split; [done |].
    split; [intros j up Hj; by rewrite lookup_nil in Hj |].
    split; [intros urls [= <-]; split; [done | lia] | discriminate].
  - fold (fileKey env i file).
    destruct (upload_result store _) as [location |] eqn:Hup; cbn [fst snd].
    + edestruct IH as (ups & Hobj & Hkeys & Hok & Hfail).
      eexists (_ :: ups). rewrite Hobj. cbn [objects].
      rewrite <- app_assoc. split; [reflexivity |]. split; [| split].
      * intros [| j] up Hj; cbn in Hj.
        -- injection Hj as <-. exists file. by rewrite Nat.add_0_r.
        -- destruct (Hkeys j up Hj) as (f & Hf & ->). exists f. split; [done |].
           by rewrite Nat.add_succ_r.
      * intros urls Hsome. destruct (Hok urls Hsome) as [Hl Hu].
        rewrite length_app in Hu. cbn in *. lia.
      * intros Hnone. destruct (Hfail Hnone) as (f & Hf & Hrej).
        exists f. cbn [length]. split; [done |]. cbn [upload_result] in Hrej.
        by rewrite Nat.add_succ_r.
    + exists []. cbn. rewrite app_nil_r. split; [done |].
      split; [intros j up Hj; by rewrite lookup_nil in Hj |].
      split; [discriminate |].
      intros _. exists file. by rewrite Nat.add_0_r.
Qed.

(** X10. A submission lacking one of the three envelope fields, or
    carrying an empty one, is answered 400 "Missing required fields" and
    changes nothing on the server: nothing is uploaded, queued or stored.
    Every other submission gets another answer. *)
Theorem invalid_envelope_is_refused srv env req :
  (valid_envelope req = false → submit srv env req = (srv, missing_fields)) ∧
  (valid_envelope req = true → code (submit srv env req).2 ≠ 400).
Proof.
  destruct (submit_cases srv env req)
    as [[Hv ->]
       | (ed & wk & ch & Hed & Hwk & Hch & Hv &
          [(store & Hup & ->)
          | (store & urls & Hup & [[Htx ->] | (tx & Htx & ->)])])];
    split; intros Hv'; try done; congruence.
Qed.



(** X12. A submission answered 200 has put exactly one job at the head of
    the worker queue and touched no other list; the job is the JSON text
    of the job data, with one file entry per attachment, and the same text
    is kept in the report's record, whose status is [received] and whose
    [filesCount] is the number of attachments in decimal. *)
Theorem accepted_submission_queues_one_job srv env req :
  code (submit srv env req).2 = 200 →
  ∃ ed wk ch fileUrls,
    encryptedData req = Some ed ∧ wrappedKey req = Some wk ∧ contentHash req = Some ch ∧
    length fileUrls = length (files req) ∧
    lists (redis (submit srv env req).1)
      = <["gpu-worker-queue" :=
            JSON_stringify (jobData_of env ed wk ch fileUrls)
            :: default [] (lists (redis srv) !! "gpu-worker-queue")]> (lists (redis srv)) ∧
    hGetAll (redis (submit srv env req).1) ("report:" ++ uuid_report env) !! "jobData"
      = Some (JSON_stringify (jobData_of env ed wk ch fileUrls)) ∧
    hGetAll (redis (submit srv env req).1) ("report:" ++ uuid_report env) !! "reportId"
      = Some (uuid_report env) ∧
    hGetAll (redis (submit srv env req).1) ("report:" ++ uuid_report env) !! "status"
      = Some "received" ∧
    hGetAll (redis (submit srv env req).1) ("report:" ++ uuid_report env) !! "filesCount"
      = Some (pretty (length (files req))).
Proof.
  destruct (submit_cases srv env req)
    as [[Hv ->]
       | (ed & wk & ch & Hed & Hwk & Hch & Hv &
          [(store & Hup & ->)
          | (store & urls & Hup & [[Htx ->] | (tx & Htx & ->)])])];
    cbn [fst snd code missing_fields internal_error]; intros Hcode; try discriminate.
  exists ed, wk, ch, urls. do 3 (split; [done |]).
  destruct (uploadFiles_objects env wk (files req) 0 (s3 srv) []) as (ups & _ & _ & Hok & _).
  rewrite Hup in Hok. destruct (Hok urls eq_refl) as [_ Hlen].
  split; [exact Hlen |]. split; [reflexivity |]. cbn [redis].
  rewrite !hGetAll_HSET. eval_written. done.
Qed.

Lemma accepted_submission_queues_one_job_witness :
  let r := submit Doubles.server Doubles.env (Doubles.request "WK1" [Doubles.photo]) in
  code r.2 = 200 ∧
  ∃ job, lists (redis r.1) = {[ "gpu-worker-queue" := [job] ]} ∧
         hGetAll (redis r.1) "report:r-1" !! "jobData" = Some job ∧
         hGetAll (redis r.1) "report:r-1" !! "filesCount" = Some "1".
Proof.
  destruct (accepted_submission_queues_one_job Doubles.server Doubles.env
              (Doubles.request "WK1" [Doubles.photo]) eq_refl)
    as (ed & wk & ch & urls & _ & _ & _ & _ & Hq & Hjob & _ & _ & Hcount).
  split; [reflexivity |]. eexists. split; [exact Hq |]. split; [exact Hjob | exact Hcount].
Defined.

(** X13. Whatever its outcome, a submission only adds objects to the blob
    store, one per attachment in order, for a first part of the
    attachments (for all of them when it is answered 200); the [j]-th is
    stored under the key reports/<reportId>/<uuid>-<original name> with
    the [j]-th file UUID, typed as an octet stream, and tagged with the
    original name and the report identifier. *)
Theorem uploads_are_filed_under_the_report srv env req :
  ∃ ups,
    objects (s3 (submit srv env req).1) = (objects (s3 srv) ++ ups)%list ∧
    (code (submit srv env req).2 = 200 → length ups = length (files req)) ∧
    ∀ j up, ups !! j = Some up →
      ∃ file, files req !! j = Some file ∧
        Key up = "reports/" ++ uuid_report env ++ "/" ++ uuid_file env j
                   ++ "-" ++ originalname file ∧
        ContentType up = "application/octet-stream" ∧
        Metadata up = [("original-name", originalname file);
                       ("report-id", uuid_report env)].
Proof.
  destruct (submit_cases srv env req)
    as [[Hv ->] | (ed & wk & ch & Hed & Hwk & Hch & Hv & Hend)].
  { exists []. cbn. rewrite app_nil_r. repeat split; [discriminate | done]. }
  destruct (uploadFiles_objects env wk (files req) 0 (s3 srv) [])
    as (ups & Hobj & Hkeys & Hok & _).
  exists ups.
  assert (Hfiled : ∀ j up, ups !! j = Some up →
    ∃ file, files req !! j = Some file ∧
      Key up = "reports/" ++ uuid_report env ++ "/" ++ uuid_file env j
                 ++ "-" ++ originalname file ∧
      ContentType up = "application/octet-stream" ∧
      Metadata up = [("original-name", originalname file); ("report-id", uuid_report env)]).
  { intros j up Hj. destruct (Hkeys j up Hj) as (file & Hf & ->). by exists file. }
  destruct Hend as [(store & Hup & ->)
                   | (store & urls & Hup & [[Htx ->] | (tx & Htx & ->)])];
    rewrite Hup in Hobj, Hok; cbn in *.
  - repeat split; [done | discriminate | done].
  - repeat split; [done | discriminate | done].
  - repeat split; [done | | done]. intros _. by destruct (Hok urls eq_refl).
Qed.

End SubmissionSpec.

(** ** The gateway: status answers *)
Module StatusSpec.
Import Gateway GatewaySpec Traffic SubmissionSpec.

Lemma report_key_inj a b : "report:" ++ a = "report:" ++ b → a = b.
Proof. apply (inj (String.app "report:")). Qed.

(** A submission writes no hash but the record of the report it draws. *)
Lemma submit_other_hash srv env req key :
  key ≠ "report:" ++ uuid_report env →
  hGetAll (redis (submit srv env req).1) key = hGetAll (redis srv) key.
Proof.
  intros Hkey.
  destruct (submit_cases srv env req)
    as [[Hv ->]
       | (ed & wk & ch & Hed & Hwk & Hch & Hv &
          [(store & Hup & ->)
          | (store & urls & Hup & [[Htx ->] | (tx & Htx & ->)])])];
    cbn [fst redis]; try done.
  by rewrite hGetAll_HSET_ne, hGetAll_lPush.
Qed.

(** A callback never writes the [reportId] field of a record. *)
Lemma webhook_reportId_field srv now b reportId :
  hGetAll (redis (webhook srv now b).1) ("report:" ++ reportId) !! "reportId"
  = hGetAll (redis srv) ("report:" ++ reportId) !! "reportId".
Proof.
  destruct (decide (reportId = wb_reportId b)) as [-> | Hne].
  - by rewrite webhook_report_hash.
  - rewrite webhook_other_hash; [done | | apply report_result_keys].
    intros Heq. by apply report_key_inj in Heq.
Qed.

Lemma serve_reportId_field rs : ∀ srv reportId,
  reportId ∉ drawn rs →
  hGetAll (redis (serve srv rs)) ("report:" ++ reportId) !! "reportId"
  = hGetAll (redis srv) ("report:" ++ reportId) !! "reportId".
Proof.
  induction rs as [| r rs IH]; intros srv reportId Hnot; [done |].
  change (serve srv (r :: rs)) with (serve (handle srv r) rs).
  destruct r as [env req | now b]; cbn in Hnot.
  - apply not_elem_of_cons in Hnot as [Hne Hnot]. rewrite IH by done. cbn [handle].
    rewrite submit_other_hash; [done |]. intros Heq. by apply report_key_inj in Heq.
  - rewrite IH by done. cbn [handle]. apply webhook_reportId_field.
Qed.

(** X14. On a gateway that started with an empty store, after any sequence
    of submissions and callbacks, a status query for an identifier that no
    submission drew is answered 404 "Report not found", also when
    callbacks have named that identifier. *)
Theorem never_drawn_report_is_not_found `{JavaScript} store rs reportId :
  reportId ∉ drawn rs →
  getStatus (serve (mkServer emptyRedis store) rs) reportId = not_found.
Proof.
  intros Hnot. unfold getStatus. rewrite serve_reportId_field by done.
  unfold hGetAll; cbn. by rewrite !lookup_empty.
Qed.

Lemma never_drawn_report_is_not_found_witness :
  getStatus (H := Doubles.javascript)
    (serve Doubles.server
       [Submit Doubles.env (Doubles.request "WK1" []);
        Callback "2024-01-01T00:01:00.000Z"
          (mkWebhookBody "r-2" "completed" (Some Doubles.summary) None)])
    "r-2" = not_found.
Proof.
  apply (never_drawn_report_is_not_found (H := Doubles.javascript)).
  cbn. rewrite list_elem_of_singleton. discriminate.
Defined.






(** X16. A callback changes the answer to no status query but that for the
    report it names. *)
Theorem callback_leaves_other_reports `{JavaScript} srv now b reportId :
  reportId ≠ wb_reportId b →
  getStatus (webhook srv now b).1 reportId = getStatus srv reportId.
Proof.
  intros Hne.
  assert (Hkey : ∀ p, p ++ reportId ≠ p ++ wb_reportId b).
  { intros p Heq. by apply (inj (String.app p)) in Heq. }
  apply getStatus_ext.
  - apply webhook_other_hash; [apply Hkey | apply report_result_keys].
  - f_equal. apply webhook_other_hash; [apply result_report_keys | apply Hkey].
Qed.

Lemma callback_leaves_other_reports_witness :
  let srv := (submit Doubles.server Doubles.env (Doubles.request "WK1" [])).1 in
  getStatus (H := Doubles.javascript)
    (webhook srv "2024-01-01T00:01:00.000Z"
       (mkWebhookBody "r-2" "failed" None None)).1 "r-1"
  = getStatus (H := Doubles.javascript) srv "r-1".
Proof.
  apply (callback_leaves_other_reports (H := Doubles.javascript)). discriminate.
Defined.

(** X17. A submission, whatever its outcome, changes the answer to no
    status query but that for the report identifier it draws. *)
Theorem submission_leaves_other_reports `{JavaScript} srv env req reportId :
  reportId ≠ uuid_report env →
  getStatus (submit srv env req).1 reportId = getStatus srv reportId.
Proof.
  intros Hne. apply getStatus_ext.
  - apply submit_other_hash. intros Heq. by apply report_key_inj in Heq.
  - f_equal. apply submit_other_hash. apply result_report_keys.
Qed.

Lemma submission_leaves_other_reports_witness :
  let srv := (submit Doubles.server Doubles.env (Doubles.request "WK1" [])).1 in
  let env2 := mkSubmitEnv None "r-2" (uuid_file Doubles.env)
                "2024-01-02T00:00:00.000Z" "2024-01-02T00:00:00.001Z" in
  getStatus (H := Doubles.javascript)
    (submit srv env2 (Doubles.request "WK2" [Doubles.photo])).1 "r-1"
  = getStatus (H := Doubles.javascript) srv "r-1".
Proof.
  apply (submission_leaves_other_reports (H := Doubles.javascript)). discriminate.
Defined.

End StatusSpec.

(** ** The upload filter *)
Module UploadSpec.
Import Upload JsonSpec.

Lemma prefix_app (t s post : string) :
  String.prefix t s = true → String.prefix t (s ++ post) = true.
Proof.
  revert s. induction t as [| a t IH]; intros [| b s];
    [intros _; by destruct post | intros _; reflexivity | discriminate |].
  rewrite append_cons. cbn. destruct (ascii_dec a b); [apply IH | done].
Qed.

Lemma includes_app_r (t s post : string) :
  includes t s = true → includes t (s ++ post) = true.
Proof.
  induction s as [| c s IH]; cbn [includes].
  - rewrite orb_false_r. intros Hp. destruct t; [| done]. by destruct post.
  - intros [Hp | Hin]%orb_true_iff; rewrite append_cons; cbn [includes];
      apply orb_true_iff.
    + left. by apply (prefix_app t (String c s) post).
    + right. by apply IH.
Qed.

Lemma includes_app_l (t pre s : string) :
  includes t s = true → includes t (pre ++ s) = true.
Proof.
  intros Hin. induction pre as [| c pre IH]; [done |].
  rewrite append_cons. cbn [includes]. apply orb_true_iff. by right.
Qed.

Lemma toLowerCase_app (a b : string) :
  toLowerCase (a ++ b) = toLowerCase a ++ toLowerCase b.
Proof.
  induction a as [| c a IH]; [done |].
  rewrite append_cons. cbn [toLowerCase]. by rewrite IH, append_cons.
Qed.

Lemma lower_char_idempotent c : lower_char (lower_char c) = lower_char c.
Proof. destruct c as [[] [] [] [] [] [] [] []]; reflexivity. Qed.

Lemma toLowerCase_idempotent s : toLowerCase (toLowerCase s) = toLowerCase s.
Proof.
  induction s as [| c s IH]; [done |]. cbn. by rewrite lower_char_idempotent, IH.
Qed.

Lemma allowedTypes_test_app pre s post :
  allowedTypes_test s = true → allowedTypes_test (pre ++ s ++ post) = true.
Proof.
  unfold allowedTypes_test. rewrite !existsb_exists.
  intros (t & Ht & Hin). exists t. split; [done |].
  by apply includes_app_l, includes_app_r.
Qed.

(** X18. The upload filter looks for the allowed type names anywhere in
    the lower-cased file name and in the MIME type as it is: a file it
    accepts is still accepted under any name that, letter case apart, has
    the accepted name somewhere inside it (with a further extension, for
    one), and with anything put before or after its MIME type. *)
Theorem fileFilter_is_not_anchored file name pre post pre' post' bytes :
  fileFilter file = accepted →
  toLowerCase name = toLowerCase (pre ++ Gateway.originalname file ++ post) →
  fileFilter (Gateway.mkFile name (pre' ++ Gateway.mimetype file ++ post') bytes) = accepted.
Proof.
  unfold fileFilter. cbn [Gateway.originalname Gateway.mimetype].
  destruct (allowedTypes_test (Gateway.mimetype file)) eqn:Hm; [| done].
  destruct (allowedTypes_test (toLowerCase (Gateway.originalname file))) eqn:He; [| done].
  intros _ ->.
  rewrite !toLowerCase_app, !allowedTypes_test_app by done. reflexivity.
Qed.

Lemma fileFilter_is_not_anchored_witness :
  fileFilter Samples.scan = accepted ∧
  fileFilter (Gateway.mkFile "SCAN.pdf.EXE" "application/pdf; charset=binary" [])
    = accepted.
Proof.
  split; [reflexivity |].
  exact (fileFilter_is_not_anchored Samples.scan "SCAN.pdf.EXE" "" ".exe"
           "" "; charset=binary" [] eq_refl eq_refl).
Defined.

End UploadSpec.

(** ** The status page and the API tests' stand-in *)
Module PageSpec.
Import Gateway GatewaySpec ReportStatus.

(** X21. The status page has no error state: whenever the gateway answers
    a status query with anything but 200 (the report is not known, or the
    stored summary cannot be parsed), the page shows "Initializing...". *)
Theorem error_answers_show_initializing `{JavaScript} srv reportId st :
  code (getStatus srv reportId) ≠ 200 →
  getStatusText (fetchStatus st (getStatus srv reportId)) = "Initializing...".
Proof.
  unfold getStatus. destruct (negb _); [done |].
  by destruct (match hGetAll _ _ !! "redactionSummary" with Some _ => _ | None => _ end).
Qed.

Lemma error_answers_show_initializing_witness :
  getStatusText (fetchStatus initial (getStatus (H := Doubles.javascript) Doubles.server "r-9"))
  = "Initializing...".
Proof.
  apply (error_answers_show_initializing (H := Doubles.javascript)). discriminate.
Defined.

(** X22. A report that has just been submitted (valid envelope with a
    transaction hash, no attachments) is shown as "Initializing...": the
    status the gateway stores for it is none of those the page knows. *)
Theorem fresh_submission_shows_initializing `{JavaScript} srv env ed wk ch tx st :
  truthy ed = true → nonempty wk = true → nonempty ch = true →
  nonempty (uuid_report env) = true →
  hashes (redis srv) !! ("result:" ++ uuid_report env) = None →
  getStatusText
    (fetchStatus st
       (getStatus
          (submit srv env (mkSubmitRequest (Some ed) (Some wk) (Some ch) (Some tx) [])).1
          (uuid_report env)))
  = "Initializing...".
Proof.
  intros Hed Hwk Hch Hid Hfresh. by rewrite getStatus_after_submit.
Qed.

Lemma fresh_submission_shows_initializing_witness :
  getStatusText
    (fetchStatus initial
       (getStatus (H := Doubles.javascript)
          (submit Doubles.server Doubles.env (Doubles.request "WK1" [])).1 "r-1"))
  = "Initializing...".
Proof.
  exact (fresh_submission_shows_initializing (H := Doubles.javascript)
           Doubles.server Doubles.env (JStr "AB12") "WK1" "H" "0x7e57" initial
           eq_refl eq_refl eq_refl eq_refl eq_refl).
Defined.




End PageSpec.

(** ** The gateway: the worker queue over time *)
Module QueueSpec.
Import Gateway GatewaySpec Traffic SubmissionSpec.



End QueueSpec.
